(** * SumGame: the game engine of [src/App.tsx]

    A shallow embedding of the state held by the [App] component (grid,
    target, score, mode, gameState, timeLeft) and of the handlers that
    update it: [initGame], [generateTarget], [addRow], the timer effect and
    [handleBlockClick] with its inlined gravity loop.

    Conventions.
    - A JavaScript array is a [list]; [a[i]] is stdpp's lookup [a !! i] and
      [a[i] = x] is stdpp's insert [<[i:=x]> a].
    - A grid cell of type [Block | null] is an [option Block].
    - Numbers that only ever hold integers (tile values, target, score,
      timeLeft, indices) are [Z] or [nat]; a result of [Math.random()] is a
      rational [u] with [0 <= u < 1].
    - React state setters are threaded as explicit state passing: a handler
      maps the current [State] to the next one. *)

From Stdlib Require Import ZArith QArith Qround Lia Ascii String.
From stdpp Require Import base list strings.

Local Open Scope Z_scope.

(** ** Constants *)

Definition COLS : nat := 6.
Definition ROWS : nat := 10.
Definition INITIAL_ROWS : nat := 4.
Definition TARGET_MIN : Z := 10.
Definition TARGET_MAX : Z := 25.
Definition TIME_MODE_LIMIT : Z := 15.

(** ** Data model *)

Inductive GameMode : Set := classic | time.

Inductive GameState : Set := menu | playing | paused | gameover.

Record Block : Set := mkBlock {
  id : string;
  value : Z;
  isSelected : bool
}.

Abbreviation Cell := (option Block).
Abbreviation Row := (list (option Block)).
Abbreviation Grid := (list (list (option Block))).

Record State : Set := mkState {
  grid : Grid;
  target : Z;
  score : Z;
  mode : GameMode;
  gameState : GameState;
  timeLeft : Z
}.

Definition GameMode_eqb (a b : GameMode) : bool :=
  match a, b with
  | classic, classic | time, time => true
  | _, _ => false
  end.

Definition GameState_eqb (a b : GameState) : bool :=
  match a, b with
  | menu, menu | playing, playing | paused, paused | gameover, gameover => true
  | _, _ => false
  end.

(** Functional record updates, one per React setter. *)

Definition setGrid (g : Grid) (s : State) : State :=
  mkState g (target s) (score s) (mode s) (gameState s) (timeLeft s).
Definition setTarget (t : Z) (s : State) : State :=
  mkState (grid s) t (score s) (mode s) (gameState s) (timeLeft s).
Definition setScore (n : Z) (s : State) : State :=
  mkState (grid s) (target s) n (mode s) (gameState s) (timeLeft s).
Definition setMode (m : GameMode) (s : State) : State :=
  mkState (grid s) (target s) (score s) m (gameState s) (timeLeft s).
Definition setGameState (gs : GameState) (s : State) : State :=
  mkState (grid s) (target s) (score s) (mode s) gs (timeLeft s).
Definition setTimeLeft (t : Z) (s : State) : State :=
  mkState (grid s) (target s) (score s) (mode s) (gameState s) t.

(** The state of the component before any game is started
    (the [useState] initial values). *)
Definition initialState : State :=
  mkState [] 0 0 classic menu TIME_MODE_LIMIT.

(** A handler either completes with the next state or throws the
    [TypeError] JavaScript raises on [undefined[i]]. *)
Inductive outcome : Set :=
| Done (s : State)
| TypeError.

(** ** Array access *)

(** [a[i]] for an integer index [i]: [None] stands for [undefined]. *)
Definition lookupZ {A : Type} (l : list A) (i : Z) : option A :=
  if i <? 0 then None else l !! Z.to_nat i.

(** [g[r][c]] read as a cell.  Inside a ROWS x COLS grid this is the cell
    itself; the loops of the source never leave that range on such a grid,
    and outside of it the model reads an empty cell. *)
Definition getCell (g : Grid) (r c : nat) : Cell :=
  match g !! r with
  | Some row => match row !! c with Some cell => cell | None => None end
  | None => None
  end.

(** [g[r][c] = v], in range (out of range the model leaves [g] as it is). *)
Definition setCell (g : Grid) (r c : nat) (v : Cell) : Grid :=
  alter (fun row => <[c := v]> row) r g.

(** The [c]-th column, top to bottom. *)
Definition column (g : Grid) (c : nat) : Row :=
  map (fun row => match row !! c with Some cell => cell | None => None end) g.

(** Every row has exactly COLS cells and there are ROWS rows. *)
Definition wfGrid (g : Grid) : Prop :=
  length g = ROWS /\ Forall (fun row => length row = COLS) g.

Definition wfGridb (g : Grid) : bool :=
  Nat.eqb (length g) ROWS && forallb (fun row => Nat.eqb (length row) COLS) g.

(** ** Random draws *)

(** [generateTarget]: [Math.floor(Math.random() * (TARGET_MAX - TARGET_MIN + 1)) + TARGET_MIN].
    The factor is 16, so the floating-point product is exact and the
    rational model is faithful. *)
Definition generateTarget (u : Q) : Z :=
  Qfloor (u * inject_Z (TARGET_MAX - TARGET_MIN + 1)) + TARGET_MIN.

(** A freshly generated tile: the id string and the value
    [Math.floor(Math.random() * 9) + 1] are taken as drawn; [isSelected]
    is [false]. *)
Definition freshBlock (d : string * Z) : Block :=
  mkBlock (fst d) (snd d) false.

(** [Array(COLS).fill(null).map(() => fresh tile)]. *)
Definition freshRow (draw : nat -> string * Z) : Row :=
  map (fun c => Some (freshBlock (draw c))) (seq 0 COLS).

(** ** initGame *)

Definition emptyGrid : Grid := replicate ROWS (replicate COLS None).

(** Inner loop of [initGame]: [for (c = 0; c < COLS; c++) newGrid[r][c] = tile]. *)
Definition fillRow (draw : nat -> nat -> string * Z) (r : nat) (g : Grid) : Grid :=
  fold_left (fun g c => setCell g r c (Some (freshBlock (draw r c)))) (seq 0 COLS) g.

(** Outer loop: [for (r = ROWS - 1; r >= ROWS - INITIAL_ROWS; r--)]. *)
Definition fillInitialRows (draw : nat -> nat -> string * Z) (g : Grid) : Grid :=
  fold_left (fun g r => fillRow draw r g)
            (rev (seq (ROWS - INITIAL_ROWS) INITIAL_ROWS)) g.

Definition initGame (draw : nat -> nat -> string * Z) (u : Q)
    (selectedMode : GameMode) (s : State) : State :=
  let newGrid := fillInitialRows draw emptyGrid in
  mkState newGrid (generateTarget u) 0 selectedMode playing TIME_MODE_LIMIT.

(** ** addRow *)

Definition isOccupied (cell : Cell) : bool :=
  match cell with Some _ => true | None => false end.

(** [for (r = 0; r < ROWS - 1; r++) newGrid[r] = newGrid[r + 1]],
    with [n] iterations left and the loop variable at [r]. *)
Fixpoint shiftUp (n r : nat) (g : Grid) : Grid :=
  match n with
  | O => g
  | S n' =>
      let g' := match g !! (S r) with
                | Some row => <[r := row]> g
                | None => g
                end in
      shiftUp n' (S r) g'
  end.

(** The updater passed to [setGrid] in [addRow], together with the
    [setGameState('gameover')] it performs. *)
Definition addRow (draw : nat -> string * Z) (s : State) : outcome :=
  let prevGrid := grid s in
  match prevGrid !! 0%nat with
  | None => TypeError
  | Some top =>
      if existsb isOccupied top then
        Done (setGameState gameover s)
      else
        let newGrid := shiftUp (ROWS - 1) 0 prevGrid in
        let newGrid := <[(ROWS - 1)%nat := freshRow draw]> newGrid in
        Done (setGrid newGrid s)
  end.

(** ** The timer effect *)

(** One firing of the interval callback.  The interval exists only while
    [gameState === 'playing' && mode === 'time']. *)
Definition tick (draw : nat -> string * Z) (s : State) : outcome :=
  if GameState_eqb (gameState s) playing && GameMode_eqb (mode s) time then
    if timeLeft s <=? 1 then
      addRow draw (setTimeLeft TIME_MODE_LIMIT s)
    else
      Done (setTimeLeft (timeLeft s - 1) s)
  else Done s.

(** ** handleBlockClick *)

Record SelectedBlock : Set := mkSel { sel_r : nat; sel_c : nat; sel_val : Z }.

Definition cellSelected (cell : Cell) : bool :=
  match cell with Some b => isSelected b | None => false end.

(** [row.forEach((cell, ci) => { if (cell?.isSelected) push })], from column [ci] on. *)
Fixpoint rowSelected (ri ci : nat) (row : Row) : list SelectedBlock :=
  match row with
  | [] => []
  | cell :: rest =>
      match cell with
      | Some b =>
          if isSelected b then mkSel ri ci (value b) :: rowSelected ri (S ci) rest
          else rowSelected ri (S ci) rest
      | None => rowSelected ri (S ci) rest
      end
  end.

(** [newGrid.forEach((row, ri) => ...)], from row [ri] on. *)
Fixpoint gridSelected (ri : nat) (g : Grid) : list SelectedBlock :=
  match g with
  | [] => []
  | row :: rest => rowSelected ri 0 row ++ gridSelected (S ri) rest
  end.

Definition selectedBlocks (g : Grid) : list SelectedBlock := gridSelected 0 g.

(** [selectedBlocks.reduce((acc, b) => acc + b.val, 0)]. *)
Definition currentSum (sel : list SelectedBlock) : Z :=
  fold_left (fun acc b => acc + sel_val b) sel 0.

(** [selectedBlocks.forEach(b => { newGrid[b.r][b.c] = null })]. *)
Definition clearSelected (sel : list SelectedBlock) (g : Grid) : Grid :=
  fold_left (fun g b => setCell g (sel_r b) (sel_c b) None) sel g.

(** Inner gravity loop for one column:
    [for (row = ROWS - 1; row >= 0; row--)], with [n] iterations left, so
    that the loop variable [row] is [n - 1]. *)
Fixpoint gravityRows (n col : nat) (emptyRow : Z) (g : Grid) : Grid :=
  match n with
  | O => g
  | S row =>
      match getCell g row col with
      | Some temp =>
          let g1 := setCell g row col None in
          let g2 := setCell g1 (Z.to_nat emptyRow) col (Some temp) in
          gravityRows row col (emptyRow - 1) g2
      | None => gravityRows row col emptyRow g
      end
  end.

(** [for (col = 0; col < COLS; col++) { let emptyRow = ROWS - 1; ... }]. *)
Definition applyGravity (g : Grid) : Grid :=
  fold_left (fun g col => gravityRows ROWS col (Z.of_nat ROWS - 1) g) (seq 0 COLS) g.

(** [{ ...block, isSelected: !block.isSelected }]. *)
Definition toggleBlock (b : Block) : Block :=
  mkBlock (id b) (value b) (negb (isSelected b)).

(** [if (cell) cell.isSelected = false]. *)
Definition deselect (cell : Cell) : Cell :=
  match cell with
  | Some b => Some (mkBlock (id b) (value b) false)
  | None => None
  end.

Definition deselectAll (g : Grid) : Grid := map (map deselect) g.

(** The random draws one click may consume: the new target and, in
    classic mode, the tiles of the injected row. *)
Definition handleBlockClick (u : Q) (draw : nat -> string * Z)
    (s : State) (r c : Z) : outcome :=
  if negb (GameState_eqb (gameState s) playing) then Done s else
  match lookupZ (grid s) r with
  | None => TypeError
  | Some row =>
      match lookupZ row c with
      | None | Some None => Done s
      | Some (Some block) =>
          let newGrid := setCell (grid s) (Z.to_nat r) (Z.to_nat c)
                                 (Some (toggleBlock block)) in
          let sel := selectedBlocks newGrid in
          if currentSum sel =? target s then
            let newGrid := applyGravity (clearSelected sel newGrid) in
            let s1 := setGrid newGrid s in
            let s2 := setScore (score s1 + Z.of_nat (length sel) * 10) s1 in
            let s3 := setTarget (generateTarget u) s2 in
            match mode s with
            | classic => addRow draw s3
            | time => Done (setTimeLeft TIME_MODE_LIMIT s3)
            end
          else if currentSum sel >? target s then
            Done (setGrid (deselectAll newGrid) s)
          else
            Done (setGrid newGrid s)
      end
  end.

(** ** Game controller: the events of the user interface *)

Inductive Event : Type :=
| EStart (m : GameMode) (draw : nat -> nat -> string * Z) (u : Q)
| EClick (r c : Z) (u : Q) (draw : nat -> string * Z)
| ETick (draw : nat -> string * Z)
| EPause
| EResume
| EQuit
| ERestart.

Definition validU (u : Q) : Prop := (0 <= u)%Q /\ (u < 1)%Q.

Definition validUb (u : Q) : bool := Qle_bool 0 u && negb (Qle_bool 1 u).

(** A drawn tile value, [Math.floor(Math.random() * 9) + 1], lies in [1, 9]. *)
Definition validValue (v : Z) : bool := (1 <=? v) && (v <=? 9).

Definition validRowDraw (draw : nat -> string * Z) : bool :=
  forallb (fun c => validValue (snd (draw c))) (seq 0 COLS).

Definition validGridDraw (draw : nat -> nat -> string * Z) : bool :=
  forallb (fun r => validRowDraw (draw r)) (seq (ROWS - INITIAL_ROWS) INITIAL_ROWS).

(** What the interface lets through in each state: the mode buttons exist
    in the menu only, the pause button is disabled in the menu and after a
    loss, the resume and restart buttons live on their overlays; the
    timer fires only while it is installed; the random draws are in range. *)
Definition enabledb (s : State) (e : Event) : bool :=
  match e with
  | EStart _ draw u =>
      GameState_eqb (gameState s) menu && validUb u && validGridDraw draw
  | EClick _ _ u draw => validUb u && validRowDraw draw
  | ETick draw =>
      GameState_eqb (gameState s) playing && GameMode_eqb (mode s) time
      && validRowDraw draw
  | EPause =>
      GameState_eqb (gameState s) playing || GameState_eqb (gameState s) paused
  | EResume => GameState_eqb (gameState s) paused
  | EQuit => true
  | ERestart => GameState_eqb (gameState s) gameover
  end.

Definition step (s : State) (e : Event) : outcome :=
  match e with
  | EStart m draw u => Done (initGame draw u m s)
  | EClick r c u draw => handleBlockClick u draw s r c
  | ETick draw => tick draw s
  | EPause =>
      Done (setGameState
              (if GameState_eqb (gameState s) playing then paused else playing) s)
  | EResume => Done (setGameState playing s)
  | EQuit => Done (setGameState menu s)
  | ERestart => Done (setGameState menu s)
  end.

(** Running a list of events from a state; stops at the first exception. *)
Fixpoint run (s : State) (es : list Event) : outcome :=
  match es with
  | [] => Done s
  | e :: es' =>
      match step s e with
      | Done s' => run s' es'
      | TypeError => TypeError
      end
  end.

(** The same, refusing an event the interface would not deliver. *)
Fixpoint runChecked (s : State) (es : list Event) : option State :=
  match es with
  | [] => Some s
  | e :: es' =>
      if enabledb s e then
        match step s e with
        | Done s' => runChecked s' es'
        | TypeError => None
        end
      else None
  end.

Inductive reachable : State -> Prop :=
| reach_init : reachable initialState
| reach_step s e s' :
    reachable s -> enabledb s e = true -> step s e = Done s' -> reachable s'.

(** ** Notions used to state the properties *)

(** The tiles of a column (or row), in order, without the empty cells. *)
Fixpoint occupied (l : Row) : list Block :=
  match l with
  | [] => []
  | Some b :: rest => b :: occupied rest
  | None :: rest => occupied rest
  end.

(** A column with its tiles at the bottom in the same order and the
    empty cells above them. *)
Definition compact (l : Row) : Row :=
  replicate (length l - length (occupied l)) None ++ map Some (occupied l).

(** The inner gravity loop seen on the column it works on. *)
Fixpoint colLoop (n : nat) (emptyRow : Z) (l : Row) : Row :=
  match n with
  | O => l
  | S row =>
      match l !! row with
      | Some (Some temp) =>
          colLoop row (emptyRow - 1)
                  (<[Z.to_nat emptyRow := Some temp]> (<[row := None]> l))
      | _ => colLoop row emptyRow l
      end
  end.

(** The grid [g] with its column [c] replaced by [l]. *)
Definition setColumn (g : Grid) (c : nat) (l : Row) : Grid :=
  zip_with (fun row v => <[c := v]> row) g l.

(** Sum of the values of the selected cells, and their number. *)
Definition cellValue (cell : Cell) : Z :=
  match cell with
  | Some b => if isSelected b then value b else 0
  | None => 0
  end.

Definition sumSelected (g : Grid) : Z :=
  foldr (fun row acc => foldr (fun cell a => cellValue cell + a) 0 row + acc) 0 g.

Definition countSelected (g : Grid) : nat :=
  foldr (fun row acc => (length (List.filter cellSelected row) + acc)%nat) 0%nat g.

(** Does the entry [b] of the selection list stand for the cell [(i, j)]? *)
Definition selAt (i j : nat) (b : SelectedBlock) : bool :=
  Nat.eqb (sel_r b) i && Nat.eqb (sel_c b) j.

Definition sumVals (sel : list SelectedBlock) : Z :=
  foldr (fun b a => sel_val b + a) 0 sel.

Definition noneSelected (g : Grid) : Prop :=
  forall i j, cellSelected (getCell g i j) = false.


(** Every row of [g] has a cell in column [c]. *)
Definition hasColumn (g : Grid) (c : nat) : Prop :=
  Forall (fun row : Row => (c < length row)%nat) g.

(** ** Concrete boards used as test inputs *)

(** Draws for a deterministic game: tile ids ["g0"], ["g1"], ... (row
    letter, column digit), the tiles of column [c] worth [c + 4]; injected
    rows have ids ["n0"], ... and value 3. *)
Definition demoDraw (r c : nat) : string * Z :=
  (String (ascii_of_nat (97 + r)) (String (ascii_of_nat (48 + c)) EmptyString),
   Z.of_nat c + 4).

Definition demoRowDraw (c : nat) : string * Z :=
  (String "n" (String (ascii_of_nat (48 + c)) EmptyString), 3).

(** The initial board with two holes punched in column 0 and one tile of
    that column selected. *)
Definition demoGrid : Grid :=
  setCell
    (setCell
       (setCell (fillInitialRows demoDraw emptyGrid) 9 0 None)
       7 0 None)
    6 0 (Some (mkBlock "g0" 4 true)).

(** The loss condition: some cell of row 0 holds a tile. *)
Definition topRowOccupied (g : Grid) : bool :=
  match g !! 0%nat with
  | Some top => existsb isOccupied top
  | None => false
  end.

(** A board whose top row holds a tile, in a classic game. *)
Definition demoLostState : State :=
  mkState (setCell (fillInitialRows demoDraw emptyGrid) 0 2 (Some (mkBlock "a2" 7 false)))
          10 0 classic playing TIME_MODE_LIMIT.

(** What a click on an occupied cell does once the cell is toggled, with
    the sum and the count read off the grid. *)
Definition resolveToggle (u : Q) (draw : nat -> string * Z) (s : State)
    (toggled : Grid) : outcome :=
  if sumSelected toggled =? target s then
    let s3 := mkState (applyGravity (clearSelected (selectedBlocks toggled) toggled))
                      (generateTarget u)
                      (score s + Z.of_nat (countSelected toggled) * 10)
                      (mode s) (gameState s) (timeLeft s) in
    match mode s with
    | classic => addRow draw s3
    | time => Done (setTimeLeft TIME_MODE_LIMIT s3)
    end
  else if sumSelected toggled >? target s then
    Done (setGrid (deselectAll toggled) s)
  else
    Done (setGrid toggled s).

(** A time-attack game just started with target 10, and the same game
    with the tile of value 4 at (9, 0) selected. *)
Definition demoStart : State := initGame demoDraw 0 time initialState.

Definition demoPending : State :=
  setGrid (setCell (grid demoStart) 9 0 (Some (mkBlock "j0" 4 true))) demoStart.


(** A time-attack game in which the tile at (9, 0) was selected and
    fourteen seconds have passed: the state and the events leading to it. *)
Definition demoTimeTrace : list Event :=
  [EStart time demoDraw 0; EClick 9 0 (1 # 2) demoRowDraw]
    ++ replicate 14 (ETick demoRowDraw).

Definition demoBeforeInjection : State := setTimeLeft 1 demoPending.

(** A classic game in which 4 and 6 were matched against the target 10
    and the player then went back to the menu. *)
Definition demoClassicTrace : list Event :=
  [EStart classic demoDraw 0;
   EClick 9 0 (1 # 2) demoRowDraw;
   EClick 9 2 (1 # 2) demoRowDraw;
   EQuit].

Definition demoAfterQuit : State :=
  match runChecked initialState demoClassicTrace with
  | Some s => s
  | None => initialState
  end.

(** ** Invariants of the reachable states *)

(** Every tile of the board has a value in [1, 9]. *)
Definition validTiles (g : Grid) : Prop :=
  forall i j b, getCell g i j = Some b -> 1 <= value b <= 9.

(** Either no game was started yet (empty board, menu, target 0), or the
    board is ROWS x COLS with tiles worth 1..9, the selected tiles sum
    below the target and the target lies in [TARGET_MIN, TARGET_MAX]. *)
Definition boardInv (s : State) : Prop :=
  (grid s = [] /\ gameState s = menu /\ target s = 0) \/
  (wfGrid (grid s) /\ validTiles (grid s) /\
   sumSelected (grid s) < target s /\
   TARGET_MIN <= target s <= TARGET_MAX).

Definition Inv (s : State) : Prop :=
  1 <= timeLeft s <= TIME_MODE_LIMIT /\
  0 <= score s /\ (10 | score s) /\
  boardInv s.

Definition isClickOrTick (e : Event) : bool :=
  match e with
  | EClick _ _ _ _ | ETick _ => true
  | _ => false
  end.

Definition isStart (e : Event) : bool :=
  match e with
  | EStart _ _ _ => true
  | _ => false
  end.

(** Sum of the selected values of one row. *)
Definition rowSum (row : Row) : Z :=
  foldr (fun cell a => cellValue cell + a) 0 row.

(** A time-attack game left alone until it is lost: six injections bring
    the first row of tiles to row 0 and the seventh countdown ends the game. *)
Definition demoLossTrace : list Event :=
  EStart time demoDraw 0 :: replicate 105 (ETick demoRowDraw).

Definition demoLostByTime : State :=
  match runChecked initialState demoLossTrace with
  | Some s => s
  | None => initialState
  end.

(** The number of tiles on the board. *)
Definition tileCount (g : Grid) : nat :=
  sum_list_with (fun row : Row => length (occupied row)) g.

(** The number of cells of a list that satisfy [P]. *)
Definition countIf (P : Cell -> bool) (l : Row) : nat :=
  length (List.filter P l).

(** What clearing does to one cell. *)
Definition clearCell (cell : Cell) : Cell :=
  if cellSelected cell then None else cell.

(** ** The high score *)

(** The component state that outlives a game: the game state, the
    [highScore] state variable and the number last written to
    [localStorage] under ['sumstack-highscore'] ([None]: nothing written
    or loaded). The stored string is [score.toString()], which determines
    the integer, so the model keeps the integer. *)
Record App : Set := mkApp {
  game : State;
  highScore : Z;
  storedHighScore : option Z
}.

(** The effect on [score, highScore]:
    [if (score > highScore) { setHighScore(score); localStorage.setItem(...) }]. *)
Definition highScoreEffect (a : App) : App :=
  if score (game a) >? highScore a then
    mkApp (game a) (score (game a)) (Some (score (game a)))
  else a.

(** An event followed by the effect it may trigger. *)
Definition appStep (a : App) (e : Event) : option App :=
  match step (game a) e with
  | Done s' => Some (highScoreEffect (mkApp s' (highScore a) (storedHighScore a)))
  | TypeError => None
  end.

Fixpoint appRun (a : App) (es : list Event) : option App :=
  match es with
  | [] => Some a
  | e :: es' =>
      match appStep a e with
      | Some a' => appRun a' es'
      | None => None
      end
  end.

(** A session that loaded the high score 20 and sits in the menu after
    the classic game of [demoClassicTrace]. *)
Definition demoApp : App := mkApp demoAfterQuit 20 (Some 20).
(** * Properties *)

(** ** Cells, rows and columns *)

Lemma getCell_column (g : Grid) (r c : nat) :
  getCell g r c = match column g c !! r with Some x => x | None => None end.
Proof.
  unfold getCell, column. rewrite list_lookup_fmap.
  destruct (g !! r); reflexivity.
Qed.

Lemma getCell_setCell (g : Grid) (r c i j : nat) :
  getCell (setCell g r c None) i j =
  if decide (r = i /\ c = j) then None else getCell g i j.
Proof.
  unfold getCell, setCell.
  destruct (decide (r = i)) as [->|Hr].
  - rewrite list_lookup_alter_eq. destruct (g !! i) as [row|] eqn:E; simpl.
    + destruct (decide (c = j)) as [->|Hc].
      * rewrite decide_True by done.
        destruct (decide (j < length row)%nat).
        -- by rewrite list_lookup_insert_eq.
        -- rewrite list_insert_ge by lia.
           rewrite (lookup_ge_None_2 row j) by lia. done.
      * rewrite decide_False by (intros [_ ?]; done).
        by rewrite list_lookup_insert_ne.
    + by case_decide.
  - rewrite list_lookup_alter_ne by done.
    rewrite decide_False by (intros [? _]; done). done.
Qed.

Lemma getCell_setCell_eq (g : Grid) (r c : nat) (v : Cell) :
  is_Some (getCell g r c) -> getCell (setCell g r c v) r c = v.
Proof.
  unfold getCell, setCell. intros [b Hb].
  rewrite list_lookup_alter_eq.
  destruct (g !! r) as [row|]; [simpl|done].
  destruct (row !! c) as [cell|] eqn:E; [|done].
  apply lookup_lt_Some in E. by rewrite list_lookup_insert_eq.
Qed.

Lemma getCell_setCell_ne (g : Grid) (r c i j : nat) (v : Cell) :
  ~ (r = i /\ c = j) -> getCell (setCell g r c v) i j = getCell g i j.
Proof.
  unfold getCell, setCell. intros Hne.
  destruct (decide (r = i)) as [->|Hr].
  - rewrite list_lookup_alter_eq. destruct (g !! i) as [row|]; [simpl|done].
    rewrite list_lookup_insert_ne by naive_solver. done.
  - by rewrite list_lookup_alter_ne.
Qed.

Lemma setCell_length (g : Grid) (r c : nat) (v : Cell) :
  length (setCell g r c v) = length g.
Proof. apply length_alter. Qed.

Lemma wfGrid_setCell (g : Grid) (r c : nat) (v : Cell) :
  wfGrid g -> wfGrid (setCell g r c v).
Proof.
  intros [Hl Hr]. split; [by rewrite setCell_length|].
  unfold setCell. apply Forall_lookup. intros i row Hi.
  destruct (decide (r = i)) as [->|Hne].
  - rewrite list_lookup_alter_eq in Hi.
    destruct (g !! i) as [row0|] eqn:E; simplify_eq/=.
    rewrite length_insert. rewrite Forall_lookup in Hr. by eapply Hr.
  - rewrite list_lookup_alter_ne in Hi by done.
    rewrite Forall_lookup in Hr. by eapply Hr.
Qed.

Lemma wfGridb_spec (g : Grid) : wfGridb g = true <-> wfGrid g.
Proof.
  unfold wfGridb, wfGrid. rewrite andb_true_iff, Nat.eqb_eq, forallb_forall.
  rewrite Forall_forall. split; intros [H1 H2]; split; try done.
  - intros x Hx. apply Nat.eqb_eq, H2. by apply list_elem_of_In.
  - intros x Hx. apply Nat.eqb_eq, H2. by apply list_elem_of_In.
Qed.

Lemma wfGrid_row (g : Grid) (r : nat) (row : Row) :
  wfGrid g -> g !! r = Some row -> length row = COLS.
Proof. intros [_ H] E. rewrite Forall_lookup in H. by eapply H. Qed.

Lemma column_length (g : Grid) (c : nat) : length (column g c) = length g.
Proof. unfold column. apply length_map. Qed.

(** A well-formed grid is determined by its columns. *)
Lemma grid_ext (g1 g2 : Grid) :
  wfGrid g1 -> wfGrid g2 ->
  (forall c, (c < COLS)%nat -> column g1 c = column g2 c) -> g1 = g2.
Proof.
  intros W1 W2 Hc. apply list_eq. intros r.
  destruct (g1 !! r) as [row1|] eqn:E1, (g2 !! r) as [row2|] eqn:E2.
  - f_equal. apply list_eq. intros c.
    pose proof (wfGrid_row _ _ _ W1 E1) as L1.
    pose proof (wfGrid_row _ _ _ W2 E2) as L2.
    destruct (decide (c < COLS)%nat) as [Hlt|Hge].
    + specialize (Hc c Hlt). apply (f_equal (fun l => l !! r)) in Hc.
      unfold column in Hc. rewrite !list_lookup_fmap, E1, E2 in Hc. simpl in Hc.
      destruct (row1 !! c) eqn:F1, (row2 !! c) eqn:F2; simplify_eq; try done.
      * apply lookup_ge_None in F2. lia.
      * apply lookup_ge_None in F1. lia.
    + rewrite !lookup_ge_None_2 by lia. done.
  - apply lookup_lt_Some in E1. apply lookup_ge_None in E2.
    destruct W1, W2. lia.
  - apply lookup_lt_Some in E2. apply lookup_ge_None in E1.
    destruct W1, W2. lia.
  - done.
Qed.

(** ** Gravity on one column *)

Lemma occupied_app (l1 l2 : Row) : occupied (l1 ++ l2) = occupied l1 ++ occupied l2.
Proof.
  induction l1 as [|[b|] l1 IH]; simpl; [done| |done].
  by rewrite IH.
Qed.

Lemma occupied_replicate_None (n : nat) : occupied (replicate n None) = [].
Proof. induction n; simpl; done. Qed.

Lemma occupied_map_Some (bs : list Block) : occupied (map Some bs) = bs.
Proof. induction bs; simpl; [done|]. by f_equal. Qed.

Lemma occupied_length (l : Row) : (length (occupied l) <= length l)%nat.
Proof. induction l as [|[b|] l IH]; simpl; lia. Qed.

Lemma colLoop_length (n : nat) (e : Z) (l : Row) :
  length (colLoop n e l) = length l.
Proof.
  revert e l. induction n as [|n IH]; intros e l; simpl; [done|].
  destruct (l !! n) as [[b|]|]; rewrite IH; [|done|done].
  by rewrite !length_insert.
Qed.

Lemma replicate_middle {A : Type} (k : nat) (x : A) (suf : list A) :
  replicate k x ++ x :: suf = x :: replicate k x ++ suf.
Proof. induction k as [|k IH]; simpl; [done|]. by rewrite IH. Qed.

(** Loop invariant: above [n] the column is as it was, between [n] and
    [emptyRow] it is empty, below [emptyRow] lie the tiles already moved. *)
Lemma colLoop_inv (pre : Row) (k : nat) (suf : Row) :
  colLoop (length pre) (Z.of_nat (length pre + k) - 1)
          (pre ++ replicate k None ++ suf)
  = replicate (length pre + k - length (occupied pre)) None
      ++ map Some (occupied pre) ++ suf.
Proof.
  revert k suf. induction pre as [|x pre IH] using rev_ind; intros k suf.
  - simpl. rewrite Nat.sub_0_r. done.
  - rewrite length_app. simpl length.
    replace (length pre + 1)%nat with (S (length pre)) by lia.
    cbn [colLoop].
    rewrite <- app_assoc. simpl app.
    rewrite (lookup_app_r pre) by lia. rewrite Nat.sub_diag. cbn [lookup list_lookup].
    rewrite occupied_app.
    destruct x as [b|].
    + (* an occupied cell: moved down to [emptyRow] *)
      replace (<[length pre:=None]> (pre ++ Some b :: replicate k None ++ suf))
        with (pre ++ replicate k None ++ None :: suf).
      2:{ rewrite insert_app_r_alt by lia. rewrite Nat.sub_diag. simpl.
          by rewrite replicate_middle. }
      replace (Z.to_nat (Z.of_nat (S (length pre) + k) - 1))
        with (length (pre ++ replicate k None) + 0)%nat.
      2:{ rewrite length_app, length_replicate. lia. }
      rewrite (app_assoc pre), insert_app_r, <- app_assoc. simpl.
      match goal with
      | |- colLoop _ ?e _ = _ =>
          replace e with (Z.of_nat (length pre + k) - 1) by lia
      end.
      rewrite IH. simpl. rewrite length_app. simpl.
      rewrite map_app, <- app_assoc. simpl.
      f_equal. f_equal. lia.
    + (* an empty cell: skipped *)
      replace (pre ++ None :: replicate k None ++ suf)
        with (pre ++ replicate (S k) None ++ suf) by done.
      match goal with
      | |- colLoop _ ?e _ = _ =>
          replace e with (Z.of_nat (length pre + S k) - 1) by lia
      end.
      rewrite IH. simpl. rewrite app_nil_r.
      f_equal. f_equal. lia.
Qed.

Lemma colLoop_compact (l : Row) :
  colLoop (length l) (Z.of_nat (length l) - 1) l = compact l.
Proof.
  pose proof (colLoop_inv l 0 []) as H. simpl in H.
  rewrite app_nil_r, Nat.add_0_r in H. rewrite app_nil_r in H. exact H.
Qed.

Lemma compact_length (l : Row) : length (compact l) = length l.
Proof.
  unfold compact. rewrite length_app, length_replicate, length_map.
  pose proof (occupied_length l). lia.
Qed.

Lemma occupied_compact (l : Row) : occupied (compact l) = occupied l.
Proof.
  unfold compact.
  by rewrite occupied_app, occupied_replicate_None, occupied_map_Some.
Qed.

Lemma compact_idem (l : Row) : compact (compact l) = compact l.
Proof.
  unfold compact at 1. rewrite occupied_compact, compact_length. done.
Qed.

(** ** Gravity on the grid *)

Lemma wfGrid_hasColumn (g : Grid) (c : nat) :
  wfGrid g -> (c < COLS)%nat -> hasColumn g c.
Proof.
  intros [_ H] Hc. unfold hasColumn. eapply Forall_impl; [exact H|].
  simpl. intros row Hrow. lia.
Qed.

Lemma hasColumn_setCell (g : Grid) (c r c' : nat) (v : Cell) :
  hasColumn g c -> hasColumn (setCell g r c' v) c.
Proof.
  unfold hasColumn, setCell. rewrite !Forall_lookup. intros H i row Hi.
  destruct (decide (r = i)) as [->|Hne].
  - rewrite list_lookup_alter_eq in Hi.
    destruct (g !! i) as [row0|] eqn:E; simplify_eq/=.
    rewrite length_insert. by eapply H.
  - rewrite list_lookup_alter_ne in Hi by done. by eapply H.
Qed.

Lemma column_setCell_eq (g : Grid) (r c : nat) (v : Cell) :
  hasColumn g c -> column (setCell g r c v) c = <[r := v]> (column g c).
Proof.
  unfold hasColumn, column, setCell. rewrite Forall_lookup. intros H.
  apply list_eq. intros i.
  rewrite list_lookup_fmap.
  destruct (decide (r = i)) as [->|Hne].
  - rewrite list_lookup_alter_eq.
    destruct (g !! i) as [row|] eqn:E; simpl.
    + rewrite (list_lookup_insert_eq row) by (by eapply H).
      rewrite list_lookup_insert_eq; [done|].
      rewrite length_map. by eapply lookup_lt_Some.
    + rewrite list_insert_ge.
      * by rewrite list_lookup_fmap, E.
      * rewrite length_map. by apply lookup_ge_None.
  - rewrite list_lookup_alter_ne by done.
    rewrite list_lookup_insert_ne by done.
    by rewrite list_lookup_fmap.
Qed.

Lemma column_setCell_ne (g : Grid) (r c c' : nat) (v : Cell) :
  c <> c' -> column (setCell g r c v) c' = column g c'.
Proof.
  intros Hne. unfold column, setCell. apply list_eq. intros i.
  rewrite !list_lookup_fmap.
  destruct (decide (r = i)) as [->|Hr].
  - rewrite list_lookup_alter_eq. destruct (g !! i) as [row|]; simpl; [|done].
    by rewrite list_lookup_insert_ne.
  - by rewrite list_lookup_alter_ne.
Qed.

Lemma setColumn_setCell (g : Grid) (r c : nat) (v : Cell) (l : Row) :
  setColumn (setCell g r c v) c l = setColumn g c l.
Proof.
  unfold setColumn, setCell. apply list_eq. intros i.
  rewrite !lookup_zip_with.
  destruct (decide (r = i)) as [->|Hr].
  - rewrite list_lookup_alter_eq. destruct (g !! i) as [row|]; simpl; [|done].
    destruct (l !! i); simpl; [|done].
    by rewrite list_insert_insert_eq.
  - by rewrite list_lookup_alter_ne.
Qed.

Lemma setColumn_column (g : Grid) (c : nat) :
  hasColumn g c -> setColumn g c (column g c) = g.
Proof.
  unfold hasColumn, setColumn, column. rewrite Forall_lookup. intros H.
  apply list_eq. intros i.
  rewrite lookup_zip_with, list_lookup_fmap.
  destruct (g !! i) as [row|] eqn:E; simpl; [|done].
  f_equal. apply list_insert_id'. intros Hlt.
  destruct (row !! c) eqn:F; [done|].
  apply lookup_ge_None in F. lia.
Qed.

Lemma column_setColumn_eq (g : Grid) (c : nat) (l : Row) :
  hasColumn g c -> length l = length g -> column (setColumn g c l) c = l.
Proof.
  unfold hasColumn, setColumn, column. rewrite Forall_lookup. intros H Hl.
  apply list_eq. intros i.
  rewrite list_lookup_fmap, lookup_zip_with.
  destruct (g !! i) as [row|] eqn:E; simpl.
  - destruct (l !! i) as [v|] eqn:F; simpl; [|done].
    rewrite list_lookup_insert_eq by (by eapply H). done.
  - apply lookup_ge_None in E. symmetry. apply lookup_ge_None. lia.
Qed.

Lemma column_setColumn_ne (g : Grid) (c c' : nat) (l : Row) :
  c <> c' -> length l = length g -> column (setColumn g c l) c' = column g c'.
Proof.
  intros Hne Hl. unfold setColumn, column. apply list_eq. intros i.
  rewrite !list_lookup_fmap, lookup_zip_with.
  destruct (g !! i) as [row|] eqn:E; simpl; [|done].
  destruct (l !! i) as [v|] eqn:F; simpl.
  - by rewrite list_lookup_insert_ne.
  - apply lookup_lt_Some in E. apply lookup_ge_None in F. lia.
Qed.

Lemma wfGrid_setColumn (g : Grid) (c : nat) (l : Row) :
  wfGrid g -> length l = length g -> wfGrid (setColumn g c l).
Proof.
  intros [Hg Hr] Hl. unfold setColumn. split.
  - rewrite length_zip_with. lia.
  - rewrite Forall_lookup in Hr. apply Forall_lookup. intros i row Hi.
    rewrite lookup_zip_with in Hi.
    destruct (g !! i) as [row0|] eqn:E; simplify_eq/=.
    destruct (l !! i) as [v|]; simplify_eq/=.
    rewrite length_insert. by eapply Hr.
Qed.

(** The inner loop rewrites column [col] as [colLoop] does and touches
    nothing else. *)
Lemma gravityRows_setColumn (n col : nat) (e : Z) (g : Grid) :
  hasColumn g col ->
  gravityRows n col e g = setColumn g col (colLoop n e (column g col)).
Proof.
  revert e g. induction n as [|n IH]; intros e g H.
  - simpl. by rewrite setColumn_column.
  - cbn [gravityRows colLoop]. rewrite getCell_column.
    destruct (column g col !! n) as [[temp|]|] eqn:E.
    + rewrite IH by (by do 2 apply hasColumn_setCell).
      rewrite !setColumn_setCell.
      rewrite column_setCell_eq by (by apply hasColumn_setCell).
      rewrite column_setCell_eq by done. done.
    + by apply IH.
    + by apply IH.
Qed.

(** One column pass of [applyGravity]. *)
Lemma gravityCol_spec (col : nat) (g : Grid) :
  wfGrid g -> (col < COLS)%nat ->
  let g' := gravityRows ROWS col (Z.of_nat ROWS - 1) g in
  wfGrid g' /\
  column g' col = compact (column g col) /\
  (forall c, c <> col -> column g' c = column g c).
Proof.
  intros W Hc. cbn zeta.
  pose proof (wfGrid_hasColumn _ _ W Hc) as HC.
  rewrite gravityRows_setColumn by done.
  assert (length (column g col) = ROWS) as HL.
  { rewrite column_length. by destruct W. }
  assert (colLoop ROWS (Z.of_nat ROWS - 1) (column g col) = compact (column g col)) as ->.
  { rewrite <- HL at 1 2. apply colLoop_compact. }
  assert (length (compact (column g col)) = length g) as HL'.
  { by rewrite compact_length, column_length. }
  split; [by apply wfGrid_setColumn|]. split.
  - by apply column_setColumn_eq.
  - intros c Hne. by apply column_setColumn_ne.
Qed.

(** All the column passes, over any list of distinct columns. *)
Lemma gravityCols_spec (cs : list nat) (g : Grid) :
  wfGrid g -> NoDup cs -> Forall (fun c => (c < COLS)%nat) cs ->
  let g' := fold_left (fun g col => gravityRows ROWS col (Z.of_nat ROWS - 1) g) cs g in
  wfGrid g' /\
  forall c, column g' c = if decide (c ∈ cs) then compact (column g c) else column g c.
Proof.
  revert g. induction cs as [|a cs IH]; intros g W ND HF; cbn zeta.
  - cbn [fold_left]. split; [done|]. intros c.
    rewrite decide_False; [done|]. apply not_elem_of_nil.
  - cbn [fold_left]. apply NoDup_cons in ND as [Hna ND]. apply Forall_cons in HF as [Ha HF].
    destruct (gravityCol_spec a g W Ha) as (W1 & Heq & Hne).
    destruct (IH _ W1 ND HF) as (W2 & Hcol).
    split; [done|]. intros c. rewrite Hcol.
    destruct (decide (c = a)) as [->|Hca].
    + rewrite decide_False by done. rewrite decide_True by apply list_elem_of_here. done.
    + rewrite Hne by done.
      destruct (decide (c ∈ cs)) as [Hin|Hnin].
      * rewrite decide_True by (by apply list_elem_of_further). done.
      * rewrite decide_False; [done|]. intros Hin. apply elem_of_cons in Hin as [?|?]; done.
Qed.

Lemma applyGravity_spec (g : Grid) :
  wfGrid g ->
  wfGrid (applyGravity g) /\
  forall c, (c < COLS)%nat -> column (applyGravity g) c = compact (column g c).
Proof.
  intros W. unfold applyGravity.
  destruct (gravityCols_spec (seq 0 COLS) g W) as (W' & Hcol).
  - apply NoDup_seq.
  - apply Forall_forall. intros c Hc. apply elem_of_seq in Hc. lia.
  - split; [done|]. intros c Hc. rewrite Hcol.
    rewrite decide_True; [done|]. apply elem_of_seq. lia.
Qed.

(** ** Gravity: compaction, stability, idempotence *)

(** C7. For every grid and every column, [applyGravity] moves the occupied
    cells of the column to its bottom contiguous positions, leaves only
    empty cells above them, and keeps the tiles in their top-to-bottom
    order (the tiles, hence their ids); the result for a column depends
    on that column alone. *)
Theorem C7_applyGravity_compacts_columns (g : Grid) (c : nat) :
  wfGrid g -> (c < COLS)%nat ->
  wfGrid (applyGravity g) /\
  column (applyGravity g) c
    = replicate (ROWS - length (occupied (column g c))) None
        ++ map Some (occupied (column g c)) /\
  occupied (column (applyGravity g) c) = occupied (column g c) /\
  map id (occupied (column (applyGravity g) c)) = map id (occupied (column g c)) /\
  (forall g2, wfGrid g2 -> column g2 c = column g c ->
              column (applyGravity g2) c = column (applyGravity g) c).
Proof.
  intros W Hc. destruct (applyGravity_spec g W) as (W' & Hcol).
  assert (length (column g c) = ROWS) as HL.
  { rewrite column_length. by destruct W. }
  split; [done|]. split; [|split; [|split]].
  - rewrite Hcol by done. unfold compact. by rewrite HL.
  - rewrite Hcol by done. apply occupied_compact.
  - rewrite Hcol by done. by rewrite occupied_compact.
  - intros g2 W2 Heq. destruct (applyGravity_spec g2 W2) as (_ & Hcol2).
    rewrite Hcol, Hcol2 by done. by rewrite Heq.
Qed.

Lemma C7_witness :
  wfGrid demoGrid /\ (0 < COLS)%nat /\
  column (applyGravity demoGrid) 0
    = replicate 8 None
        ++ [Some (mkBlock "g0" 4 true); Some (mkBlock "i0" 4 false)].
Proof.
  assert (wfGrid demoGrid) as W by (apply wfGridb_spec; vm_compute; reflexivity).
  assert (0 < COLS)%nat as Hc by (unfold COLS; lia).
  split; [exact W|]. split; [exact Hc|].
  exact (proj1 (proj2 (C7_applyGravity_compacts_columns demoGrid 0 W Hc))).
Defined.

(** C8. Gravity compaction is idempotent:
    [applyGravity (applyGravity g) = applyGravity g] for every grid. *)
Theorem C8_applyGravity_idempotent (g : Grid) :
  wfGrid g -> applyGravity (applyGravity g) = applyGravity g.
Proof.
  intros W. destruct (applyGravity_spec g W) as (W1 & Hcol1).
  destruct (applyGravity_spec _ W1) as (W2 & Hcol2).
  apply grid_ext; [done|done|]. intros c Hc.
  rewrite Hcol2, Hcol1 by done. apply compact_idem.
Qed.

Lemma C8_witness :
  wfGrid demoGrid /\ applyGravity (applyGravity demoGrid) = applyGravity demoGrid.
Proof.
  assert (wfGrid demoGrid) as W by (apply wfGridb_spec; vm_compute; reflexivity).
  split; [exact W|]. exact (C8_applyGravity_idempotent demoGrid W).
Defined.

(** ** The selection list *)

Lemma fold_left_sumVals (sel : list SelectedBlock) (a : Z) :
  fold_left (fun acc b => acc + sel_val b) sel a = a + sumVals sel.
Proof.
  revert a. induction sel as [|b sel IH]; intros a; simpl; [lia|].
  rewrite IH. lia.
Qed.

Lemma currentSum_sumVals (sel : list SelectedBlock) : currentSum sel = sumVals sel.
Proof. unfold currentSum. rewrite fold_left_sumVals. lia. Qed.

Lemma sumVals_app (l1 l2 : list SelectedBlock) :
  sumVals (l1 ++ l2) = sumVals l1 + sumVals l2.
Proof. induction l1 as [|b l1 IH]; simpl; [done|]. rewrite IH. lia. Qed.

Lemma sumVals_rowSelected (ri ci : nat) (row : Row) :
  sumVals (rowSelected ri ci row) = foldr (fun cell a => cellValue cell + a) 0 row.
Proof.
  revert ci. induction row as [|[b|] row IH]; intros ci; simpl; [done| |].
  - destruct (isSelected b); simpl; rewrite IH; done.
  - by rewrite IH.
Qed.

Lemma sumVals_gridSelected (ri : nat) (g : Grid) :
  sumVals (gridSelected ri g) = sumSelected g.
Proof.
  revert ri. induction g as [|row g IH]; intros ri; simpl; [done|].
  by rewrite sumVals_app, sumVals_rowSelected, IH.
Qed.

(** The sum computed by the handler is the sum of the selected cells. *)
Lemma currentSum_selectedBlocks (g : Grid) :
  currentSum (selectedBlocks g) = sumSelected g.
Proof.
  rewrite currentSum_sumVals. unfold selectedBlocks.
  apply sumVals_gridSelected.
Qed.

Lemma length_rowSelected (ri ci : nat) (row : Row) :
  length (rowSelected ri ci row) = length (List.filter cellSelected row).
Proof.
  revert ci. induction row as [|[b|] row IH]; intros ci; simpl; [done| |done].
  destruct (isSelected b); simpl; by rewrite IH.
Qed.

Lemma length_gridSelected (ri : nat) (g : Grid) :
  length (gridSelected ri g) = countSelected g.
Proof.
  revert ri. induction g as [|row g IH]; intros ri; simpl; [done|].
  by rewrite length_app, length_rowSelected, IH.
Qed.

(** Its length is the number of selected cells. *)
Lemma length_selectedBlocks (g : Grid) :
  length (selectedBlocks g) = countSelected g.
Proof. apply length_gridSelected. Qed.

Lemma existsb_rowSelected (i j ri ci : nat) (row : Row) :
  existsb (selAt i j) (rowSelected ri ci row)
  = Nat.eqb ri i && Nat.leb ci j
    && cellSelected (match row !! (j - ci)%nat with Some x => x | None => None end).
Proof.
  revert ci. induction row as [|cell row IH]; intros ci.
  - simpl. by rewrite andb_false_r.
  - assert (existsb (selAt i j) (rowSelected ri ci (cell :: row))
            = (cellSelected cell && Nat.eqb ri i && Nat.eqb ci j)
              || existsb (selAt i j) (rowSelected ri (S ci) row)) as ->.
    { simpl. destruct cell as [b|]; simpl; [|done].
      destruct (isSelected b); simpl; [|done].
      unfold selAt at 1. simpl. done. }
    rewrite IH.
    destruct (Nat.eqb_spec ri i) as [->|Hri];
      [|by destruct (cellSelected cell)].
    destruct (Nat.eqb_spec ci j) as [->|Hcj].
    + rewrite Nat.sub_diag. cbn [lookup list_lookup].
      rewrite Nat.leb_refl.
      destruct (Nat.leb_spec (S j) j); [lia|].
      by destruct (cellSelected cell).
    + destruct (Nat.leb_spec ci j) as [Hle|Hgt].
      * destruct (Nat.leb_spec (S ci) j); [|lia].
        replace (j - ci)%nat with (S (j - S ci)) by lia.
        cbn [lookup list_lookup]. by destruct (cellSelected cell).
      * destruct (Nat.leb_spec (S ci) j); [lia|].
        by destruct (cellSelected cell).
Qed.

Lemma existsb_gridSelected (i j ri : nat) (g : Grid) :
  existsb (selAt i j) (gridSelected ri g)
  = Nat.leb ri i && cellSelected (getCell g (i - ri) j).
Proof.
  revert ri. induction g as [|row g IH]; intros ri.
  - simpl. unfold getCell. simpl. by rewrite andb_false_r.
  - cbn [gridSelected]. rewrite existsb_app, existsb_rowSelected, IH.
    rewrite Nat.sub_0_r. change (0 <=? j)%nat with true. rewrite andb_true_r.
    destruct (Nat.eqb_spec ri i) as [->|Hne].
    + rewrite Nat.sub_diag, Nat.leb_refl.
      destruct (Nat.leb_spec (S i) i); [lia|].
      unfold getCell. cbn [lookup list_lookup].
      by destruct (cellSelected _).
    + destruct (Nat.leb_spec ri i) as [Hle|Hgt].
      * destruct (Nat.leb_spec (S ri) i); [|lia].
        replace (i - ri)%nat with (S (i - S ri)) by lia. done.
      * destruct (Nat.leb_spec (S ri) i); [lia|]. done.
Qed.

(** A cell is on the selection list exactly when it is selected. *)
Lemma existsb_selectedBlocks (i j : nat) (g : Grid) :
  existsb (selAt i j) (selectedBlocks g) = cellSelected (getCell g i j).
Proof.
  unfold selectedBlocks. rewrite existsb_gridSelected.
  by rewrite Nat.sub_0_r.
Qed.

(** ** Clearing and deselecting *)

Lemma getCell_clearSelected (sel : list SelectedBlock) (g : Grid) (i j : nat) :
  getCell (clearSelected sel g) i j
  = if existsb (selAt i j) sel then None else getCell g i j.
Proof.
  unfold clearSelected. revert g.
  induction sel as [|b sel IH]; intros g; cbn [fold_left existsb]; [done|].
  rewrite IH, getCell_setCell.
  destruct (selAt i j b) eqn:E; unfold selAt in E; cbn [orb].
  - apply andb_true_iff in E as [Hr%Nat.eqb_eq Hc%Nat.eqb_eq].
    rewrite decide_True by (by split). by destruct (existsb _ sel).
  - rewrite decide_False; [done|]. intros [Hr Hc].
    rewrite Hr, Hc, !Nat.eqb_refl in E. done.
Qed.

Lemma wfGrid_clearSelected (sel : list SelectedBlock) (g : Grid) :
  wfGrid g -> wfGrid (clearSelected sel g).
Proof.
  unfold clearSelected. revert g.
  induction sel as [|b sel IH]; intros g W; simpl; [done|].
  apply IH. by apply wfGrid_setCell.
Qed.

(** Clearing the selection list empties exactly the selected cells. *)
Lemma getCell_cleared (g : Grid) (i j : nat) :
  getCell (clearSelected (selectedBlocks g) g) i j
  = if cellSelected (getCell g i j) then None else getCell g i j.
Proof. by rewrite getCell_clearSelected, existsb_selectedBlocks. Qed.

Lemma getCell_deselectAll (g : Grid) (i j : nat) :
  getCell (deselectAll g) i j = deselect (getCell g i j).
Proof.
  unfold getCell, deselectAll. rewrite list_lookup_fmap.
  destruct (g !! i) as [row|]; simpl; [|done].
  rewrite list_lookup_fmap. destruct (row !! j); done.
Qed.

Lemma wfGrid_deselectAll (g : Grid) : wfGrid g -> wfGrid (deselectAll g).
Proof.
  intros [Hl Hr]. unfold deselectAll. split; [by rewrite length_map|].
  rewrite Forall_lookup in Hr. apply Forall_lookup. intros i row Hi.
  rewrite list_lookup_fmap in Hi.
  destruct (g !! i) as [row0|] eqn:E; simplify_eq/=.
  rewrite length_map. by eapply Hr.
Qed.

(** ** Target generation *)

Lemma generateTarget_range (u : Q) :
  validU u -> TARGET_MIN <= generateTarget u <= TARGET_MAX.
Proof.
  intros [H0 H1]. unfold generateTarget, TARGET_MIN, TARGET_MAX.
  change (25 - 10 + 1) with 16.
  assert (0 <= Qfloor (u * inject_Z 16)) as Hlo.
  { rewrite <- (Qfloor_Z 0). apply Qfloor_resp_le.
    apply Qmult_le_0_compat; [exact H0|]. discriminate. }
  assert (Qfloor (u * inject_Z 16) < 16) as Hhi.
  { rewrite Zlt_Qlt.
    eapply Qle_lt_trans; [apply Qfloor_le|].
    apply Qlt_le_trans with (1 * inject_Z 16)%Q.
    - apply Qmult_lt_compat_r; [reflexivity|exact H1].
    - discriminate. }
  lia.
Qed.

(** ** Row injection *)

Lemma shiftUp_spawn (g : Grid) (newRow : Row) :
  length g = ROWS ->
  <[(ROWS - 1)%nat := newRow]> (shiftUp (ROWS - 1) 0 g) = drop 1 g ++ [newRow].
Proof.
  intros H. unfold ROWS in *.
  do 10 (destruct g as [|? g]; [discriminate H|]).
  destruct g; [reflexivity|discriminate H].
Qed.

Lemma freshRow_length (draw : nat -> string * Z) : length (freshRow draw) = COLS.
Proof. unfold freshRow. by rewrite length_map, length_seq. Qed.

Lemma wfGrid_top (g : Grid) : wfGrid g -> exists top, g !! 0%nat = Some top.
Proof.
  intros [Hl _]. destruct g as [|top g]; [discriminate Hl|]. by exists top.
Qed.

Lemma topRowOccupied_true (g : Grid) (c : nat) (b : Block) :
  getCell g 0 c = Some b -> topRowOccupied g = true.
Proof.
  unfold getCell, topRowOccupied. destruct (g !! 0%nat) as [top|]; [|done].
  destruct (top !! c) as [cell|] eqn:E; [|done]. intros ->.
  apply existsb_exists. exists (Some b). split; [|done].
  apply list_elem_of_In, list_elem_of_lookup. by exists c.
Qed.

Lemma topRowOccupied_false (g : Grid) :
  (forall c, getCell g 0 c = None) -> topRowOccupied g = false.
Proof.
  unfold getCell, topRowOccupied. destruct (g !! 0%nat) as [top|]; [|done].
  intros H. apply not_true_is_false. intros Hex.
  apply existsb_exists in Hex as ([b|] & Hin & Hocc); [|done].
  apply list_elem_of_In, list_elem_of_lookup in Hin as [c Hc].
  specialize (H c). by rewrite Hc in H.
Qed.

Lemma addRow_lost (draw : nat -> string * Z) (s : State) :
  topRowOccupied (grid s) = true ->
  addRow draw s = Done (setGameState gameover s).
Proof.
  unfold topRowOccupied, addRow. destruct (grid s !! 0%nat); [|done].
  by intros ->.
Qed.

Lemma addRow_shift (draw : nat -> string * Z) (s : State) :
  wfGrid (grid s) -> topRowOccupied (grid s) = false ->
  addRow draw s = Done (setGrid (drop 1 (grid s) ++ [freshRow draw]) s).
Proof.
  intros W. destruct (wfGrid_top _ W) as [top Htop].
  unfold topRowOccupied, addRow. cbn zeta. rewrite Htop. intros ->.
  rewrite shiftUp_spawn by (by destruct W). done.
Qed.

Lemma wfGrid_shifted (g : Grid) (draw : nat -> string * Z) :
  wfGrid g -> wfGrid (drop 1 g ++ [freshRow draw]).
Proof.
  intros [Hl Hr]. split.
  - rewrite length_app, length_drop. simpl. unfold ROWS in *. lia.
  - apply Forall_app. split.
    + by apply Forall_drop.
    + apply Forall_singleton, freshRow_length.
Qed.

(** The cells of the shifted grid: every tile one row up, unchanged; the
    fresh row at the bottom. *)
Lemma getCell_shifted (g : Grid) (draw : nat -> string * Z) (i j : nat) :
  wfGrid g -> (i < ROWS - 1)%nat ->
  getCell (drop 1 g ++ [freshRow draw]) i j = getCell g (S i) j.
Proof.
  intros [Hl _] Hi. unfold getCell.
  rewrite lookup_app_l by (rewrite length_drop; lia).
  by rewrite lookup_drop.
Qed.

Lemma getCell_spawned (g : Grid) (draw : nat -> string * Z) (j : nat) :
  wfGrid g -> (j < COLS)%nat ->
  getCell (drop 1 g ++ [freshRow draw]) (ROWS - 1) j = Some (freshBlock (draw j)).
Proof.
  intros [Hl _] Hj. unfold getCell.
  rewrite lookup_app_r by (rewrite length_drop; lia).
  rewrite length_drop, Hl. replace (ROWS - 1 - (ROWS - 1))%nat with 0%nat by lia.
  cbn [lookup list_lookup]. unfold freshRow.
  rewrite list_lookup_fmap, lookup_seq_lt by done. done.
Qed.

(** C3. When some cell of row 0 holds a tile, row injection shifts
    nothing and adds no row: the grid is returned as it is and the game
    goes to [gameover]. The shift and the spawn happen when row 0 is
    entirely empty, and then no loss is signalled. *)
Theorem C3_addRow_loss_before_shift (draw : nat -> string * Z) (s : State) :
  (forall c b, getCell (grid s) 0 c = Some b ->
     exists s', addRow draw s = Done s' /\
       grid s' = grid s /\ gameState s' = gameover /\
       target s' = target s /\ score s' = score s /\
       mode s' = mode s /\ timeLeft s' = timeLeft s) /\
  (wfGrid (grid s) -> (forall c, getCell (grid s) 0 c = None) ->
     exists s', addRow draw s = Done s' /\
       grid s' = drop 1 (grid s) ++ [freshRow draw] /\
       gameState s' = gameState s) /\
  (forall s', addRow draw s = Done s' -> grid s' <> grid s ->
     forall c, getCell (grid s) 0 c = None).
Proof.
  split; [|split].
  - intros c b Hc. exists (setGameState gameover s).
    rewrite addRow_lost by (by eapply topRowOccupied_true). done.
  - intros W Hempty. eexists. rewrite addRow_shift; [|done|].
    + split; [reflexivity|]. done.
    + by apply topRowOccupied_false.
  - intros s' Hs' Hne c.
    destruct (getCell (grid s) 0 c) as [b|] eqn:E; [|done].
    rewrite addRow_lost in Hs' by (by eapply topRowOccupied_true).
    inversion Hs'; subst. simpl in Hne. done.
Qed.

Lemma C3_witness :
  getCell (grid demoLostState) 0 2 = Some (mkBlock "a2" 7 false) /\
  exists s', addRow demoRowDraw demoLostState = Done s' /\
    grid s' = grid demoLostState /\ gameState s' = gameover /\
    target s' = target demoLostState /\ score s' = score demoLostState /\
    mode s' = mode demoLostState /\ timeLeft s' = timeLeft demoLostState.
Proof.
  split; [reflexivity|].
  exact (proj1 (C3_addRow_loss_before_shift demoRowDraw demoLostState)
               2%nat (mkBlock "a2" 7 false) eq_refl).
Defined.

(** ** A click on an occupied cell *)

Lemma getCell_lookupZ (g : Grid) (r c : Z) (block : Block) :
  0 <= r -> 0 <= c ->
  getCell g (Z.to_nat r) (Z.to_nat c) = Some block ->
  exists row, lookupZ g r = Some row /\ lookupZ row c = Some (Some block).
Proof.
  intros Hr Hc. unfold getCell, lookupZ.
  destruct (Z.ltb_spec r 0); [lia|]. destruct (Z.ltb_spec c 0); [lia|].
  destruct (g !! Z.to_nat r) as [row|]; [|done].
  destruct (row !! Z.to_nat c) as [cell|] eqn:E; [|done].
  intros ->. by exists row.
Qed.

Lemma handleBlockClick_occupied (u : Q) (draw : nat -> string * Z)
    (s : State) (r c : Z) (block : Block) :
  gameState s = playing -> 0 <= r -> 0 <= c ->
  getCell (grid s) (Z.to_nat r) (Z.to_nat c) = Some block ->
  handleBlockClick u draw s r c
  = resolveToggle u draw s
      (setCell (grid s) (Z.to_nat r) (Z.to_nat c) (Some (toggleBlock block))).
Proof.
  intros Hp Hr Hc Hcell.
  destruct (getCell_lookupZ _ _ _ _ Hr Hc Hcell) as (row & Hrow & Hblk).
  unfold handleBlockClick, resolveToggle. rewrite Hp. cbn [GameState_eqb negb].
  rewrite Hrow, Hblk. cbn zeta.
  rewrite currentSum_selectedBlocks, length_selectedBlocks.
  destruct s as [g t sc m gs tl]. cbn [gameState] in Hp. subst gs.
  reflexivity.
Qed.

(** ** Selection after a clear and after gravity *)

Lemma noneSelected_cleared (g : Grid) :
  noneSelected (clearSelected (selectedBlocks g) g).
Proof.
  intros i j. rewrite getCell_cleared.
  destruct (cellSelected (getCell g i j)) eqn:E; done.
Qed.

Lemma Forall_occupied (P : Cell -> Prop) (l : Row) :
  Forall P l -> Forall (fun b => P (Some b)) (occupied l).
Proof.
  induction 1 as [|[b|] l Hx Hl IH]; simpl; [done| |done].
  by constructor.
Qed.

Lemma Forall_compact (P : Cell -> Prop) (l : Row) :
  P None -> Forall P l -> Forall P (compact l).
Proof.
  intros HN Hl. unfold compact. apply Forall_app. split.
  - by apply Forall_replicate.
  - apply Forall_fmap. by apply Forall_occupied.
Qed.

Lemma noneSelected_column (g : Grid) :
  noneSelected g <->
  forall c, Forall (fun cell => cellSelected cell = false) (column g c).
Proof.
  split.
  - intros H c. apply Forall_lookup. intros i cell Hi.
    specialize (H i c). rewrite getCell_column, Hi in H. done.
  - intros H i j. rewrite getCell_column.
    destruct (column g j !! i) as [cell|] eqn:E; [|done].
    specialize (H j). rewrite Forall_lookup in H. by eapply H.
Qed.

Lemma column_out_of_range (g : Grid) (c : nat) :
  wfGrid g -> (COLS <= c)%nat -> column g c = replicate (length g) None.
Proof.
  intros [_ Hr] Hc. unfold column. clear -Hr Hc.
  induction g as [|row g IH]; simpl; [done|].
  apply Forall_cons in Hr as [Hrow Hr].
  rewrite (lookup_ge_None_2 row c) by lia. f_equal. by apply IH.
Qed.

Lemma noneSelected_applyGravity (g : Grid) :
  wfGrid g -> noneSelected g -> noneSelected (applyGravity g).
Proof.
  intros W H. destruct (applyGravity_spec g W) as (W' & Hcol).
  apply noneSelected_column. intros c.
  destruct (decide (c < COLS)%nat) as [Hlt|Hge].
  - rewrite Hcol by done. apply Forall_compact; [done|].
    by apply noneSelected_column.
  - rewrite column_out_of_range by (done || lia).
    by apply Forall_replicate.
Qed.

Lemma noneSelected_shifted (g : Grid) (draw : nat -> string * Z) :
  wfGrid g -> noneSelected g -> noneSelected (drop 1 g ++ [freshRow draw]).
Proof.
  intros W H i j.
  destruct (decide (i < ROWS - 1)%nat) as [Hlt|Hge].
  - rewrite getCell_shifted by done. apply H.
  - unfold getCell. destruct W as [Hl _].
    rewrite lookup_app_r by (rewrite length_drop; lia).
    rewrite length_drop.
    destruct (i - (length g - 1))%nat as [|k] eqn:E; cbn [lookup list_lookup]; [|done].
    unfold freshRow. rewrite list_lookup_fmap.
    destruct (seq 0 COLS !! j); done.
Qed.

(** ** Match and overflow *)

Lemma validU_half : validU (1 # 2).
Proof. split; discriminate || reflexivity. Qed.

(** C1. In a Playing state, when the toggle of an in-bounds occupied cell
    makes the selected values sum to the target, the click clears exactly
    the selected cells, applies gravity, adds 10 times the number of
    selected cells to the score and draws a new target in
    [TARGET_MIN, TARGET_MAX] = [10, 25]. (In classic mode the row injection
    then runs on the compacted grid.) *)
Theorem C1_match_clears_scores_retargets (u : Q) (draw : nat -> string * Z)
    (s : State) (r c : Z) (block : Block) :
  validU u -> gameState s = playing -> wfGrid (grid s) ->
  0 <= r -> 0 <= c ->
  getCell (grid s) (Z.to_nat r) (Z.to_nat c) = Some block ->
  let toggled :=
    setCell (grid s) (Z.to_nat r) (Z.to_nat c) (Some (toggleBlock block)) in
  sumSelected toggled = target s ->
  exists cleared s',
    handleBlockClick u draw s r c = Done s' /\
    wfGrid cleared /\
    (forall i j, getCell cleared i j
                 = if cellSelected (getCell toggled i j) then None
                   else getCell toggled i j) /\
    wfGrid (applyGravity cleared) /\
    (forall col, (col < COLS)%nat ->
       column (applyGravity cleared) col = compact (column cleared col)) /\
    match mode s with
    | time => grid s' = applyGravity cleared /\ gameState s' = playing
    | classic =>
        if topRowOccupied (applyGravity cleared)
        then grid s' = applyGravity cleared /\ gameState s' = gameover
        else grid s' = drop 1 (applyGravity cleared) ++ [freshRow draw]
             /\ gameState s' = playing
    end /\
    score s' = score s + 10 * Z.of_nat (countSelected toggled) /\
    target s' = generateTarget u /\
    TARGET_MIN <= target s' <= TARGET_MAX.
Proof.
  intros Hu Hp W Hr Hc Hcell toggled Hsum.
  rewrite (handleBlockClick_occupied u draw s r c block) by done.
  fold toggled. unfold resolveToggle. rewrite Hsum, Z.eqb_refl. cbn zeta.
  set (cleared := clearSelected (selectedBlocks toggled) toggled).
  assert (wfGrid cleared) as Wc.
  { apply wfGrid_clearSelected. by apply wfGrid_setCell. }
  destruct (applyGravity_spec cleared Wc) as (Wg & Hcol).
  pose proof (generateTarget_range u Hu) as Hrange.
  assert (forall i j, getCell cleared i j
                      = if cellSelected (getCell toggled i j) then None
                        else getCell toggled i j) as Hclr.
  { intros i j. apply getCell_cleared. }
  exists cleared.
  destruct (mode s) eqn:Hm.
  - (* classic: the row injection runs on the compacted grid *)
    destruct (topRowOccupied (applyGravity cleared)) eqn:Htop.
    + rewrite addRow_lost by exact Htop. eexists. split; [reflexivity|].
      cbn [grid score target gameState setGameState].
      split; [exact Wc|]. split; [exact Hclr|]. split; [exact Wg|].
      split; [exact Hcol|]. split; [by split|].
      split; [lia|]. split; [reflexivity|exact Hrange].
    + rewrite addRow_shift by (exact Wg || exact Htop). eexists.
      split; [reflexivity|].
      cbn [grid score target gameState setGrid].
      split; [exact Wc|]. split; [exact Hclr|]. split; [exact Wg|].
      split; [exact Hcol|]. split; [by split|].
      split; [lia|]. split; [reflexivity|exact Hrange].
  - eexists. split; [reflexivity|].
    cbn [grid score target gameState setTimeLeft].
    split; [exact Wc|]. split; [exact Hclr|]. split; [exact Wg|].
    split; [exact Hcol|]. split; [by split|].
    split; [lia|]. split; [reflexivity|exact Hrange].
Qed.

Lemma C1_witness :
  validU (1 # 2) /\ gameState demoPending = playing /\
  wfGrid (grid demoPending) /\ 0 <= 9 /\ 0 <= 2 /\
  getCell (grid demoPending) (Z.to_nat 9) (Z.to_nat 2) = Some (mkBlock "j2" 6 false) /\
  sumSelected (setCell (grid demoPending) (Z.to_nat 9) (Z.to_nat 2)
                 (Some (toggleBlock (mkBlock "j2" 6 false))))
    = target demoPending /\
  exists s', handleBlockClick (1 # 2) demoRowDraw demoPending 9 2 = Done s'.
Proof.
  assert (gameState demoPending = playing) as Hp by (vm_compute; reflexivity).
  assert (wfGrid (grid demoPending)) as W by (apply wfGridb_spec; vm_compute; reflexivity).
  assert (0 <= 9) as H9 by lia. assert (0 <= 2) as H2 by lia.
  assert (getCell (grid demoPending) (Z.to_nat 9) (Z.to_nat 2)
          = Some (mkBlock "j2" 6 false)) as Hcell by (vm_compute; reflexivity).
  assert (sumSelected (setCell (grid demoPending) (Z.to_nat 9) (Z.to_nat 2)
                         (Some (toggleBlock (mkBlock "j2" 6 false))))
          = target demoPending) as Hsum by (vm_compute; reflexivity).
  repeat (split; [first [exact validU_half | exact Hp | exact W | exact H9
                        | exact H2 | exact Hcell | exact Hsum]|]).
  destruct (C1_match_clears_scores_retargets (1 # 2) demoRowDraw demoPending 9 2
              (mkBlock "j2" 6 false) validU_half Hp W H9 H2 Hcell Hsum)
    as (cleared & s' & Hs' & _).
  exists s'. exact Hs'.
Defined.

(** C2. In a Playing state, when the toggle of an in-bounds occupied cell
    makes the selected values exceed the target, the click leaves every
    tile in place (no cell is emptied), sets the selected flag of every
    cell of the board to false, and changes neither score nor target. *)
Theorem C2_overflow_deselects_all (u : Q) (draw : nat -> string * Z)
    (s : State) (r c : Z) (block : Block) :
  gameState s = playing -> 0 <= r -> 0 <= c ->
  getCell (grid s) (Z.to_nat r) (Z.to_nat c) = Some block ->
  sumSelected (setCell (grid s) (Z.to_nat r) (Z.to_nat c) (Some (toggleBlock block)))
    > target s ->
  exists s',
    handleBlockClick u draw s r c = Done s' /\
    (forall i j,
       getCell (grid s') i j
       = match getCell (grid s) i j with
         | Some b => Some (mkBlock (id b) (value b) false)
         | None => None
         end) /\
    length (grid s') = length (grid s) /\
    (wfGrid (grid s) -> wfGrid (grid s')) /\
    score s' = score s /\ target s' = target s /\
    mode s' = mode s /\ gameState s' = gameState s /\ timeLeft s' = timeLeft s.
Proof.
  intros Hp Hr Hc Hcell Hsum.
  rewrite (handleBlockClick_occupied u draw s r c block) by done.
  unfold resolveToggle.
  destruct (Z.eqb_spec (sumSelected (setCell (grid s) (Z.to_nat r) (Z.to_nat c)
                          (Some (toggleBlock block)))) (target s)) as [Heq|_]; [lia|].
  destruct (Z.gtb_spec (sumSelected (setCell (grid s) (Z.to_nat r) (Z.to_nat c)
                          (Some (toggleBlock block)))) (target s)) as [_|Hle]; [|lia].
  eexists. split; [reflexivity|].
  cbn [grid score target mode gameState timeLeft setGrid].
  split; [|split; [|split; [|done]]].
  - intros i j. rewrite getCell_deselectAll.
    destruct (decide (Z.to_nat r = i /\ Z.to_nat c = j)) as [[<- <-]|Hne].
    + rewrite getCell_setCell_eq by (by rewrite Hcell). by rewrite Hcell.
    + rewrite getCell_setCell_ne by done. by destruct (getCell (grid s) i j).
  - unfold deselectAll. by rewrite length_map, setCell_length.
  - intros W. by apply wfGrid_deselectAll, wfGrid_setCell.
Qed.

Lemma C2_witness :
  gameState demoPending = playing /\ 0 <= 9 /\ 0 <= 4 /\
  getCell (grid demoPending) (Z.to_nat 9) (Z.to_nat 4) = Some (mkBlock "j4" 8 false) /\
  sumSelected (setCell (grid demoPending) (Z.to_nat 9) (Z.to_nat 4)
                 (Some (toggleBlock (mkBlock "j4" 8 false))))
    > target demoPending /\
  exists s', handleBlockClick (1 # 2) demoRowDraw demoPending 9 4 = Done s' /\
             score s' = score demoPending /\ target s' = target demoPending.
Proof.
  assert (gameState demoPending = playing) as Hp by (vm_compute; reflexivity).
  assert (0 <= 9) as H9 by lia. assert (0 <= 4) as H4 by lia.
  assert (getCell (grid demoPending) (Z.to_nat 9) (Z.to_nat 4)
          = Some (mkBlock "j4" 8 false)) as Hcell by (vm_compute; reflexivity).
  assert (sumSelected (setCell (grid demoPending) (Z.to_nat 9) (Z.to_nat 4)
                         (Some (toggleBlock (mkBlock "j4" 8 false))))
          > target demoPending) as Hsum by (vm_compute; reflexivity).
  repeat (split; [first [exact Hp | exact H9 | exact H4 | exact Hcell | exact Hsum]|]).
  destruct (C2_overflow_deselects_all (1 # 2) demoRowDraw demoPending 9 4
              (mkBlock "j4" 8 false) Hp H9 H4 Hcell Hsum)
    as (s' & Hs' & _ & _ & _ & Hscore & Htarget & _).
  exists s'. split; [exact Hs'|]. split; [exact Hscore|exact Htarget].
Defined.

(** ** Clicks that change nothing *)

(** C5 (as the code has it). A click is a no-op, leaving grid, score,
    target, timeLeft and gameState as they are, when the game is not
    Playing, or when the row index is inside the grid and the cell is
    empty or the column index is outside the row. A row index outside
    the grid is not covered: see [C5_row_out_of_bounds_throws]. *)
Theorem C5_stale_click_is_noop (u : Q) (draw : nat -> string * Z)
    (s : State) (r c : Z) :
  gameState s <> playing \/
  (0 <= r < Z.of_nat (length (grid s)) /\
   (c < 0 \/ getCell (grid s) (Z.to_nat r) (Z.to_nat c) = None)) ->
  handleBlockClick u draw s r c = Done s.
Proof.
  intros H. unfold handleBlockClick.
  destruct (GameState_eqb (gameState s) playing) eqn:Eg; cbn [negb]; [|done].
  destruct H as [Hn|[Hr Hc]].
  { destruct (gameState s); try discriminate Eg; done. }
  unfold lookupZ at 1. destruct (Z.ltb_spec r 0); [lia|].
  destruct (grid s !! Z.to_nat r) as [row|] eqn:Erow.
  2:{ apply lookup_ge_None in Erow. lia. }
  unfold lookupZ. destruct (Z.ltb_spec c 0) as [Hneg|Hpos]; [done|].
  destruct Hc as [Hc|Hc]; [lia|].
  unfold getCell in Hc. rewrite Erow in Hc.
  destruct (row !! Z.to_nat c) as [cell|]; [|done].
  by rewrite Hc.
Qed.

Lemma C5_witness :
  (gameState demoStart <> playing \/
   (0 <= 0 < Z.of_nat (length (grid demoStart)) /\
    (3 < 0 \/ getCell (grid demoStart) (Z.to_nat 0) (Z.to_nat 3) = None))) /\
  handleBlockClick (1 # 2) demoRowDraw demoStart 0 3 = Done demoStart.
Proof.
  assert (gameState demoStart <> playing \/
          (0 <= 0 < Z.of_nat (length (grid demoStart)) /\
           (3 < 0 \/ getCell (grid demoStart) (Z.to_nat 0) (Z.to_nat 3) = None))) as H.
  { right. split; [vm_compute; split; [discriminate|reflexivity]|].
    right. vm_compute. reflexivity. }
  split; [exact H|].
  exact (C5_stale_click_is_noop (1 # 2) demoRowDraw demoStart 0 3 H).
Defined.

(** The claim fails for a row index outside the board: in a Playing
    state on a full-size board, a click at row 10 (or row -1) throws. *)
Lemma C5_row_out_of_bounds_throws :
  gameState demoStart = playing /\ wfGrid (grid demoStart) /\
  ~ (0 <= 10 < Z.of_nat ROWS) /\
  handleBlockClick (1 # 2) demoRowDraw demoStart 10 0 = TypeError /\
  handleBlockClick (1 # 2) demoRowDraw demoStart (-1) 0 = TypeError /\
  ~ (exists s', handleBlockClick (1 # 2) demoRowDraw demoStart 10 0 = Done s').
Proof.
  assert (handleBlockClick (1 # 2) demoRowDraw demoStart 10 0 = TypeError) as H
    by (vm_compute; reflexivity).
  split; [vm_compute; reflexivity|].
  split; [apply wfGridb_spec; vm_compute; reflexivity|].
  split; [unfold ROWS; lia|].
  split; [exact H|].
  split; [vm_compute; reflexivity|].
  intros [s' Hs']. rewrite H in Hs'. discriminate Hs'.
Qed.

(** ** The countdown *)

Lemma addRow_fields (draw : nat -> string * Z) (s s' : State) :
  addRow draw s = Done s' ->
  score s' = score s /\ target s' = target s /\
  mode s' = mode s /\ timeLeft s' = timeLeft s.
Proof.
  unfold addRow. cbn zeta. destruct (grid s !! 0%nat) as [top|]; [|done].
  destruct (existsb isOccupied top); intros [= <-]; done.
Qed.

Lemma addRow_cases (draw : nat -> string * Z) (s : State) :
  wfGrid (grid s) ->
  exists s', addRow draw s = Done s' /\
    if topRowOccupied (grid s)
    then grid s' = grid s /\ gameState s' = gameover
    else grid s' = drop 1 (grid s) ++ [freshRow draw]
         /\ gameState s' = gameState s.
Proof.
  intros W. destruct (topRowOccupied (grid s)) eqn:Htop.
  - rewrite addRow_lost by exact Htop. eexists. split; [reflexivity|]. done.
  - rewrite addRow_shift by (exact W || exact Htop).
    eexists. split; [reflexivity|]. done.
Qed.

(** C6. In a Playing time-attack game the countdown goes down by one per
    tick; the tick that would bring it to zero injects one row (or ends the
    game when row 0 is occupied) and puts the countdown back to
    TIME_MODE_LIMIT = 15; a Match puts the countdown back to
    TIME_MODE_LIMIT and injects no row. *)
Theorem C6_time_attack_countdown (draw : nat -> string * Z) (s : State) :
  gameState s = playing -> mode s = time ->
  (1 < timeLeft s -> tick draw s = Done (setTimeLeft (timeLeft s - 1) s)) /\
  (timeLeft s - 1 = 0 -> wfGrid (grid s) ->
     exists s',
       tick draw s = Done s' /\ timeLeft s' = 15 /\
       score s' = score s /\ target s' = target s /\
       if topRowOccupied (grid s)
       then grid s' = grid s /\ gameState s' = gameover
       else grid s' = drop 1 (grid s) ++ [freshRow draw]
            /\ gameState s' = playing) /\
  (forall u r c block,
     wfGrid (grid s) -> 0 <= r -> 0 <= c ->
     getCell (grid s) (Z.to_nat r) (Z.to_nat c) = Some block ->
     let toggled :=
       setCell (grid s) (Z.to_nat r) (Z.to_nat c) (Some (toggleBlock block)) in
     sumSelected toggled = target s ->
     exists s',
       handleBlockClick u draw s r c = Done s' /\
       timeLeft s' = 15 /\ gameState s' = playing /\
       grid s' = applyGravity (clearSelected (selectedBlocks toggled) toggled)).
Proof.
  intros Hp Hm. split; [|split].
  - intros Hlt. unfold tick. rewrite Hp, Hm. cbn [GameState_eqb GameMode_eqb andb].
    destruct (Z.leb_spec (timeLeft s) 1); [lia|done].
  - intros H1 W. unfold tick. rewrite Hp, Hm. cbn [GameState_eqb GameMode_eqb andb].
    destruct (Z.leb_spec (timeLeft s) 1); [|lia].
    destruct (addRow_cases draw (setTimeLeft TIME_MODE_LIMIT s) W)
      as (s' & Hs' & Hcase).
    destruct (addRow_fields _ _ _ Hs') as (Hsc & Htg & _ & Htl).
    exists s'. split; [exact Hs'|]. split; [exact Htl|].
    split; [exact Hsc|]. split; [exact Htg|].
    cbn [grid gameState setTimeLeft] in Hcase. by rewrite Hp in Hcase.
  - intros u r c block W Hr Hc Hcell toggled Hsum.
    rewrite (handleBlockClick_occupied u draw s r c block) by done.
    fold toggled. unfold resolveToggle. rewrite Hsum, Z.eqb_refl, Hm.
    eexists. split; [reflexivity|].
    cbn [grid gameState timeLeft setTimeLeft]. done.
Qed.

Lemma C6_witness :
  gameState demoBeforeInjection = playing /\ mode demoBeforeInjection = time /\
  timeLeft demoBeforeInjection - 1 = 0 /\ wfGrid (grid demoBeforeInjection) /\
  exists s', tick demoRowDraw demoBeforeInjection = Done s' /\ timeLeft s' = 15.
Proof.
  assert (gameState demoBeforeInjection = playing) as Hp by (vm_compute; reflexivity).
  assert (mode demoBeforeInjection = time) as Hm by (vm_compute; reflexivity).
  assert (timeLeft demoBeforeInjection - 1 = 0) as H1 by (vm_compute; reflexivity).
  assert (wfGrid (grid demoBeforeInjection)) as W
    by (apply wfGridb_spec; vm_compute; reflexivity).
  repeat (split; [first [exact Hp | exact Hm | exact H1 | exact W]|]).
  destruct (proj1 (proj2 (C6_time_attack_countdown demoRowDraw demoBeforeInjection Hp Hm))
              H1 W) as (s' & Hs' & Htl & _).
  exists s'. split; [exact Hs'|exact Htl].
Defined.

(** ** Reachable states *)

Lemma reachable_runChecked (s s' : State) (es : list Event) :
  reachable s -> runChecked s es = Some s' -> reachable s'.
Proof.
  revert s. induction es as [|e es IH]; intros s Hs Hrun.
  - simpl in Hrun. by inversion Hrun; subst.
  - cbn [runChecked] in Hrun.
    destruct (enabledb s e) eqn:He; [|done].
    destruct (step s e) as [s1|] eqn:Hst; [|done].
    apply (IH s1); [|exact Hrun]. by eapply reach_step.
Qed.

Lemma reachable_demoBeforeInjection : reachable demoBeforeInjection.
Proof.
  apply (reachable_runChecked initialState _ demoTimeTrace); [apply reach_init|].
  vm_compute. reflexivity.
Qed.

Lemma reachable_demoAfterQuit : reachable demoAfterQuit.
Proof.
  apply (reachable_runChecked initialState _ demoClassicTrace); [apply reach_init|].
  vm_compute. reflexivity.
Qed.

(** ** Selection across gravity and row injection *)

(** C4 (as the code has it). After a Match no cell of the board is
    selected: the selected tiles were cleared before gravity ran, and the
    classic row injection that follows adds unselected tiles. Gravity and
    the row shift themselves move a tile as it is: gravity keeps the
    tiles of a column, flags included, and the row shift puts the cell
    of row [i + 1], flag included, at row [i]; only the spawned bottom row
    is unselected by construction. *)
Theorem C4_selection_after_gravity_and_shift :
  (forall u draw s r c block,
     gameState s = playing -> wfGrid (grid s) -> 0 <= r -> 0 <= c ->
     getCell (grid s) (Z.to_nat r) (Z.to_nat c) = Some block ->
     sumSelected (setCell (grid s) (Z.to_nat r) (Z.to_nat c)
                    (Some (toggleBlock block))) = target s ->
     exists s', handleBlockClick u draw s r c = Done s' /\ noneSelected (grid s')) /\
  (forall g c, wfGrid g -> (c < COLS)%nat ->
     occupied (column (applyGravity g) c) = occupied (column g c)) /\
  (forall draw s,
     wfGrid (grid s) -> topRowOccupied (grid s) = false ->
     exists s', addRow draw s = Done s' /\
       (forall i j, (i < ROWS - 1)%nat ->
          getCell (grid s') i j = getCell (grid s) (S i) j) /\
       (forall j, (j < COLS)%nat ->
          getCell (grid s') (ROWS - 1) j = Some (freshBlock (draw j)))).
Proof.
  split; [|split].
  - intros u draw s r c block Hp W Hr Hc Hcell Hsum.
    rewrite (handleBlockClick_occupied u draw s r c block) by done.
    unfold resolveToggle. rewrite Hsum, Z.eqb_refl. cbn zeta.
    set (toggled := setCell (grid s) (Z.to_nat r) (Z.to_nat c)
                            (Some (toggleBlock block))).
    set (cleared := clearSelected (selectedBlocks toggled) toggled).
    assert (wfGrid cleared) as Wc.
    { apply wfGrid_clearSelected. by apply wfGrid_setCell. }
    destruct (applyGravity_spec cleared Wc) as (Wg & _).
    assert (noneSelected (applyGravity cleared)) as Hnone.
    { apply noneSelected_applyGravity; [exact Wc|]. apply noneSelected_cleared. }
    destruct (mode s).
    + destruct (topRowOccupied (applyGravity cleared)) eqn:Htop.
      * rewrite addRow_lost by exact Htop. eexists. split; [reflexivity|].
        exact Hnone.
      * rewrite addRow_shift by (exact Wg || exact Htop).
        eexists. split; [reflexivity|].
        cbn [grid setGrid]. by apply noneSelected_shifted.
    + eexists. split; [reflexivity|]. exact Hnone.
  - intros g c W Hc. destruct (applyGravity_spec g W) as (_ & Hcol).
    rewrite Hcol by exact Hc. apply occupied_compact.
  - intros draw s W Htop. rewrite addRow_shift by (exact W || exact Htop).
    eexists. split; [reflexivity|]. cbn [grid setGrid]. split.
    + intros i j Hi. by apply getCell_shifted.
    + intros j Hj. by apply getCell_spawned.
Qed.

Lemma C4_witness :
  wfGrid (grid demoBeforeInjection) /\
  topRowOccupied (grid demoBeforeInjection) = false /\
  exists s', addRow demoRowDraw demoBeforeInjection = Done s' /\
    (forall i j, (i < ROWS - 1)%nat ->
       getCell (grid s') i j = getCell (grid demoBeforeInjection) (S i) j) /\
    (forall j, (j < COLS)%nat ->
       getCell (grid s') (ROWS - 1) j = Some (freshBlock (demoRowDraw j))).
Proof.
  assert (wfGrid (grid demoBeforeInjection)) as W
    by (apply wfGridb_spec; vm_compute; reflexivity).
  assert (topRowOccupied (grid demoBeforeInjection) = false) as Htop
    by (vm_compute; reflexivity).
  split; [exact W|]. split; [exact Htop|].
  exact (proj2 (proj2 C4_selection_after_gravity_and_shift)
               demoRowDraw demoBeforeInjection W Htop).
Defined.

(** The claim fails for the timer-driven row injection: in a reachable
    time-attack state with the tile "j0" selected at (9, 0), the tick that
    injects a row moves that tile to (8, 0) and it is still selected. *)
Lemma C4_selection_survives_row_shift :
  reachable demoBeforeInjection /\
  getCell (grid demoBeforeInjection) 9 0 = Some (mkBlock "j0" 4 true) /\
  exists s',
    tick demoRowDraw demoBeforeInjection = Done s' /\
    gameState s' = playing /\
    getCell (grid s') 8 0 = Some (mkBlock "j0" 4 true) /\
    cellSelected (getCell (grid s') 8 0) = true.
Proof.
  split; [exact reachable_demoBeforeInjection|].
  split; [vm_compute; reflexivity|].
  destruct (tick demoRowDraw demoBeforeInjection) as [s'|] eqn:E;
    [|vm_compute in E; discriminate E].
  exists s'. split; [reflexivity|].
  vm_compute in E. injection E as <-.
  split; [reflexivity|]. split; reflexivity.
Qed.

(** ** The score *)

Lemma handleBlockClick_score (u : Q) (draw : nat -> string * Z)
    (s s' : State) (r c : Z) :
  handleBlockClick u draw s r c = Done s' -> score s <= score s'.
Proof.
  unfold handleBlockClick.
  destruct (negb (GameState_eqb (gameState s) playing)).
  { intros [= <-]. lia. }
  destruct (lookupZ (grid s) r) as [row|]; [|done].
  destruct (lookupZ row c) as [[block|]|].
  2,3: intros [= <-]; lia.
  cbn zeta.
  destruct (_ =? _).
  - destruct (mode s).
    + intros H. apply addRow_fields in H as (Hsc & _).
      rewrite Hsc. cbn [score setTarget setScore setGrid]. lia.
    + intros [= <-]. cbn [score setTimeLeft setTarget setScore setGrid]. lia.
  - destruct (_ >? _); intros [= <-]; cbn [score setGrid]; lia.
Qed.

Lemma tick_score (draw : nat -> string * Z) (s s' : State) :
  tick draw s = Done s' -> score s' = score s.
Proof.
  unfold tick. destruct (_ && _); [|by intros [= <-]].
  destruct (_ <=? _).
  - intros H. by apply addRow_fields in H as (Hsc & _).
  - by intros [= <-].
Qed.

(** C9 (as the code has it). Starting a game sets the score to 0; every
    other transition (click with its match, overflow or pending outcome
    and the row injection it may trigger, timer tick, pause, resume, quit,
    restart) leaves the score as it is or raises it. *)
Theorem C9_score_monotone_except_start (s s' : State) (e : Event) :
  step s e = Done s' ->
  match e with
  | EStart _ _ _ => score s' = 0
  | _ => score s <= score s'
  end.
Proof.
  destruct e as [m draw u|r c u draw|draw| | | |]; cbn [step].
  - by intros [= <-].
  - apply handleBlockClick_score.
  - intros H. apply tick_score in H. lia.
  - intros [= <-]. cbn [score setGameState]. lia.
  - intros [= <-]. cbn [score setGameState]. lia.
  - intros [= <-]. cbn [score setGameState]. lia.
  - intros [= <-]. cbn [score setGameState]. lia.
Qed.

Lemma C9_witness :
  exists s', step demoPending (EClick 9 2 (1 # 2) demoRowDraw) = Done s' /\
             score demoPending <= score s'.
Proof.
  destruct (step demoPending (EClick 9 2 (1 # 2) demoRowDraw)) as [s'|] eqn:E.
  - exists s'. split; [reflexivity|].
    exact (C9_score_monotone_except_start demoPending s' _ E).
  - vm_compute in E. discriminate E.
Defined.

(** The claim fails for the start transition: after a scored classic
    game and a quit, the state shows the score 20 in the menu, and
    starting a new game puts the score back to 0. *)
Lemma C9_start_resets_score :
  reachable demoAfterQuit /\
  score demoAfterQuit = 20 /\
  enabledb demoAfterQuit (EStart classic demoDraw 0) = true /\
  exists s', step demoAfterQuit (EStart classic demoDraw 0) = Done s' /\
             score s' = 0 /\ score s' < score demoAfterQuit.
Proof.
  split; [exact reachable_demoAfterQuit|].
  split; [vm_compute; reflexivity|].
  split; [vm_compute; reflexivity|].
  eexists. split; [reflexivity|].
  split; [reflexivity|]. vm_compute. reflexivity.
Qed.

(** * Further properties of the handlers *)

(** ** initGame *)

(** X1. [initGame] builds a ROWS x COLS board whose top
    ROWS - INITIAL_ROWS rows are empty and whose bottom INITIAL_ROWS rows
    are full of the drawn tiles, none selected; it sets score 0, the
    chosen mode, Playing, the countdown TIME_MODE_LIMIT and a target in
    [TARGET_MIN, TARGET_MAX], whatever the previous state was. *)
Theorem X1_initGame_board (draw : nat -> nat -> string * Z) (u : Q)
    (m : GameMode) (s : State) :
  validU u ->
  let s' := initGame draw u m s in
  grid s' = replicate (ROWS - INITIAL_ROWS) (replicate COLS None)
              ++ map (fun r => freshRow (draw r))
                     (seq (ROWS - INITIAL_ROWS) INITIAL_ROWS) /\
  wfGrid (grid s') /\ noneSelected (grid s') /\
  score s' = 0 /\ mode s' = m /\ gameState s' = playing /\
  timeLeft s' = TIME_MODE_LIMIT /\
  TARGET_MIN <= target s' <= TARGET_MAX.
Proof.
  intros Hu s'.
  assert (grid s' = replicate (ROWS - INITIAL_ROWS) (replicate COLS None)
                      ++ map (fun r => freshRow (draw r))
                             (seq (ROWS - INITIAL_ROWS) INITIAL_ROWS)) as Hg
    by reflexivity.
  split; [exact Hg|].
  split; [rewrite Hg; apply wfGridb_spec; reflexivity|].
  split.
  { intros i j. rewrite Hg.
    do 10 (destruct i as [|i]; [do 6 (destruct j as [|j]; [reflexivity|]); reflexivity|]).
    reflexivity. }
  split; [reflexivity|]. split; [reflexivity|]. split; [reflexivity|].
  split; [reflexivity|]. apply generateTarget_range, Hu.
Qed.

Lemma X1_witness :
  validU (1 # 2) /\
  grid (initGame demoDraw (1 # 2) classic demoAfterQuit)
    = replicate (ROWS - INITIAL_ROWS) (replicate COLS None)
        ++ map (fun r => freshRow (demoDraw r))
               (seq (ROWS - INITIAL_ROWS) INITIAL_ROWS).
Proof.
  split; [exact validU_half|].
  exact (proj1 (X1_initGame_board demoDraw (1 # 2) classic demoAfterQuit validU_half)).
Defined.

(** ** generateTarget *)

(** X2. [generateTarget] is monotone in the random draw and takes every
    value of [TARGET_MIN, TARGET_MAX]: the target [t] is drawn from
    [u = (t - 10) / 16]. With the range bound this makes the set of
    possible targets exactly 10..25. *)
Theorem X2_generateTarget_onto_and_monotone :
  (forall u v, (u <= v)%Q -> generateTarget u <= generateTarget v) /\
  (forall t, TARGET_MIN <= t <= TARGET_MAX ->
     exists u, validU u /\ generateTarget u = t) /\
  (forall u, validU u -> TARGET_MIN <= generateTarget u <= TARGET_MAX).
Proof.
  split; [|split].
  - intros u v Huv. unfold generateTarget.
    apply Z.add_le_mono_r. apply Qfloor_resp_le.
    apply Qmult_le_compat_r; [exact Huv|]. discriminate.
  - intros t Ht. unfold TARGET_MIN, TARGET_MAX in Ht.
    exists (Qmake (t - 10) 16). split.
    + split.
      * unfold Qle. simpl. lia.
      * unfold Qlt. simpl. lia.
    + unfold generateTarget, TARGET_MIN, TARGET_MAX.
      change (25 - 10 + 1) with 16.
      assert (Qfloor (((t - 10) # 16) * inject_Z 16) = t - 10) as ->; [|lia].
      transitivity (Qfloor (inject_Z (t - 10))); [|apply Qfloor_Z].
      apply Qfloor_comp.
      unfold Qeq, Qmult, inject_Z. cbn [Qnum Qden]. lia.
  - apply generateTarget_range.
Qed.

Lemma X2_witness :
  TARGET_MIN <= 17 <= TARGET_MAX /\
  exists u, validU u /\ generateTarget u = 17.
Proof.
  assert (TARGET_MIN <= 17 <= TARGET_MAX) as H by (unfold TARGET_MIN, TARGET_MAX; lia).
  split; [exact H|].
  exact (proj1 (proj2 X2_generateTarget_onto_and_monotone) 17 H).
Defined.

(** ** Where the tiles of a grid come from *)

Lemma elem_of_occupied (l : Row) (b : Block) :
  b ∈ occupied l <-> Some b ∈ l.
Proof.
  induction l as [|[b0|] l IH]; simpl.
  - split; intros H; by apply elem_of_nil in H.
  - rewrite !elem_of_cons, IH. split; intros [H|H]; auto; left; congruence.
  - rewrite elem_of_cons, IH. split; [auto|]. intros [H|H]; [done|auto].
Qed.

Lemma elem_of_compact (l : Row) (b : Block) :
  Some b ∈ compact l <-> Some b ∈ l.
Proof. by rewrite <- !elem_of_occupied, occupied_compact. Qed.

Lemma getCell_elem_of_column (g : Grid) (j : nat) (b : Block) :
  Some b ∈ column g j <-> exists i, getCell g i j = Some b.
Proof.
  rewrite list_elem_of_lookup. split; intros [i Hi]; exists i.
  - by rewrite getCell_column, Hi.
  - rewrite getCell_column in Hi.
    destruct (column g j !! i) as [cell|]; [by subst|done].
Qed.

(** Gravity moves tiles within their column: it creates none and loses
    none. *)
Lemma applyGravity_tiles (g : Grid) (j : nat) (b : Block) :
  wfGrid g ->
  (exists i, getCell (applyGravity g) i j = Some b) <->
  (exists i, getCell g i j = Some b).
Proof.
  intros W. destruct (applyGravity_spec g W) as (W' & Hcol).
  rewrite <- !getCell_elem_of_column.
  destruct (decide (j < COLS)%nat) as [Hlt|Hge].
  - rewrite Hcol by exact Hlt. apply elem_of_compact.
  - rewrite !column_out_of_range by (done || lia).
    destruct W as [-> _], W' as [-> _]. done.
Qed.

Lemma getCell_toggled (g : Grid) (r c i j : nat) (block : Block) :
  getCell g r c = Some block ->
  getCell (setCell g r c (Some (toggleBlock block))) i j
  = if decide (r = i /\ c = j) then Some (toggleBlock block) else getCell g i j.
Proof.
  intros Hcell. destruct (decide (r = i /\ c = j)) as [[<- <-]|Hne].
  - apply getCell_setCell_eq. by rewrite Hcell.
  - by apply getCell_setCell_ne.
Qed.

Lemma getCell_shifted_cases (g : Grid) (draw : nat -> string * Z) (i j : nat) :
  wfGrid g ->
  getCell (drop 1 g ++ [freshRow draw]) i j
  = if decide (i < ROWS - 1)%nat then getCell g (S i) j
    else if decide (i = ROWS - 1 /\ j < COLS)%nat then Some (freshBlock (draw j))
    else None.
Proof.
  intros W. destruct (decide (i < ROWS - 1)%nat) as [Hlt|Hge].
  { by apply getCell_shifted. }
  destruct (decide (i = ROWS - 1 /\ j < COLS)%nat) as [[-> Hj]|Hne].
  { by apply getCell_spawned. }
  unfold getCell. destruct W as [Hl _].
  rewrite lookup_app_r by (rewrite length_drop; lia).
  rewrite length_drop, Hl.
  destruct (i - (ROWS - 1))%nat as [|k] eqn:E; cbn [lookup list_lookup]; [|done].
  assert (i = ROWS - 1)%nat as Hi by lia.
  rewrite (lookup_ge_None_2 (freshRow draw) j); [done|].
  rewrite freshRow_length. apply Nat.nlt_ge. intros Hj. apply Hne. done.
Qed.

(** ** Tile values *)

Lemma validRowDraw_value (draw : nat -> string * Z) (j : nat) :
  validRowDraw draw = true -> (j < COLS)%nat ->
  1 <= value (freshBlock (draw j)) <= 9.
Proof.
  unfold validRowDraw, validValue. rewrite forallb_forall. intros H Hj.
  specialize (H j). simpl.
  assert (In j (seq 0 COLS)) as Hin by (apply in_seq; lia).
  apply H in Hin. apply andb_true_iff in Hin as [H1 H2]. lia.
Qed.

Lemma validTiles_toggled (g : Grid) (r c : nat) (block : Block) :
  validTiles g -> getCell g r c = Some block ->
  validTiles (setCell g r c (Some (toggleBlock block))).
Proof.
  intros V Hcell i j b. rewrite (getCell_toggled _ _ _ _ _ _ Hcell).
  case_decide.
  - intros [= <-]. simpl. by apply (V r c).
  - apply V.
Qed.

Lemma validTiles_cleared (g : Grid) :
  validTiles g -> validTiles (clearSelected (selectedBlocks g) g).
Proof.
  intros V i j b. rewrite getCell_cleared.
  destruct (cellSelected (getCell g i j)); [done|]. apply V.
Qed.

Lemma validTiles_applyGravity (g : Grid) :
  wfGrid g -> validTiles g -> validTiles (applyGravity g).
Proof.
  intros W V i j b Hb.
  assert (exists i', getCell g i' j = Some b) as [i' Hi'].
  { apply (applyGravity_tiles g j b W). by exists i. }
  by apply (V i' j).
Qed.

Lemma validTiles_deselectAll (g : Grid) :
  validTiles g -> validTiles (deselectAll g).
Proof.
  intros V i j b. rewrite getCell_deselectAll.
  destruct (getCell g i j) as [b0|] eqn:E; simpl; [|done].
  intros [= <-]. simpl. by apply (V i j).
Qed.

Lemma validTiles_shifted (g : Grid) (draw : nat -> string * Z) :
  wfGrid g -> validTiles g -> validRowDraw draw = true ->
  validTiles (drop 1 g ++ [freshRow draw]).
Proof.
  intros W V Hd i j b. rewrite getCell_shifted_cases by exact W.
  case_decide; [apply V|].
  case_decide as Hc; [|done].
  intros [= <-]. apply validRowDraw_value; [exact Hd|]. by destruct Hc.
Qed.

(** ** The sum of the selected values *)

Lemma sumSelected_cons (row : Row) (g : Grid) :
  sumSelected (row :: g) = rowSum row + sumSelected g.
Proof. reflexivity. Qed.

Lemma sumSelected_app (g1 g2 : Grid) :
  sumSelected (g1 ++ g2) = sumSelected g1 + sumSelected g2.
Proof.
  induction g1 as [|row g1 IH]; [done|].
  rewrite <- app_comm_cons, !sumSelected_cons, IH. lia.
Qed.

Lemma rowSum_unselected (row : Row) :
  Forall (fun cell => cellSelected cell = false) row -> rowSum row = 0.
Proof.
  induction 1 as [|cell row Hc Hrow IH]; [done|].
  unfold rowSum in *. cbn [foldr]. rewrite IH.
  destruct cell as [b|]; simpl in *; [|done]. by rewrite Hc.
Qed.

Lemma noneSelected_sum (g : Grid) : noneSelected g -> sumSelected g = 0.
Proof.
  induction g as [|row g IH]; intros H; [done|].
  rewrite sumSelected_cons, IH.
  - rewrite rowSum_unselected; [done|].
    apply Forall_lookup. intros j cell Hj.
    specialize (H 0%nat j). unfold getCell in H. cbn [lookup list_lookup] in H.
    by rewrite Hj in H.
  - intros i j. apply (H (S i) j).
Qed.

Lemma noneSelected_deselectAll (g : Grid) : noneSelected (deselectAll g).
Proof.
  intros i j. rewrite getCell_deselectAll. by destruct (getCell g i j).
Qed.

Lemma rowSum_freshRow (draw : nat -> string * Z) : rowSum (freshRow draw) = 0.
Proof.
  apply rowSum_unselected. unfold freshRow.
  apply Forall_fmap, Forall_forall. done.
Qed.

Lemma rowSum_empty (row : Row) : existsb isOccupied row = false -> rowSum row = 0.
Proof.
  induction row as [|[b|] row IH]; simpl; [done|done|].
  intros H. unfold rowSum in *. cbn [foldr]. by rewrite IH.
Qed.

(** The row shift keeps the sum: the row it drops is empty and the row it
    adds is unselected. *)
Lemma sumSelected_shifted (g : Grid) (draw : nat -> string * Z) :
  topRowOccupied g = false ->
  sumSelected (drop 1 g ++ [freshRow draw]) = sumSelected g.
Proof.
  unfold topRowOccupied. destruct g as [|top g]; intros Htop.
  - change (drop 1 [] ++ [freshRow draw]) with [freshRow draw].
    rewrite sumSelected_cons, rowSum_freshRow. done.
  - cbn [lookup list_lookup] in Htop.
    change (drop 1 (top :: g)) with g.
    rewrite sumSelected_app, !sumSelected_cons, rowSum_freshRow.
    rewrite (rowSum_empty top Htop). change (sumSelected []) with 0. lia.
Qed.

(** ** The handlers keep the invariant *)

Lemma validUb_spec (u : Q) : validUb u = true -> validU u.
Proof.
  unfold validUb, validU. intros H. apply andb_true_iff in H as [H0 H1].
  split.
  - by apply Qle_bool_iff.
  - apply Qnot_le_lt. intros Hle. apply Qle_bool_iff in Hle.
    rewrite Hle in H1. discriminate H1.
Qed.

Lemma validGridDraw_row (draw : nat -> nat -> string * Z) (r : nat) :
  validGridDraw draw = true ->
  (ROWS - INITIAL_ROWS <= r < ROWS)%nat -> validRowDraw (draw r) = true.
Proof.
  unfold validGridDraw. rewrite forallb_forall. intros H Hr.
  apply H, in_seq. unfold ROWS, INITIAL_ROWS in *. lia.
Qed.

Lemma initGame_grid (draw : nat -> nat -> string * Z) (u : Q)
    (m : GameMode) (s : State) :
  grid (initGame draw u m s)
  = replicate (ROWS - INITIAL_ROWS) (replicate COLS None)
      ++ map (fun r => freshRow (draw r)) (seq (ROWS - INITIAL_ROWS) INITIAL_ROWS).
Proof. reflexivity. Qed.

Lemma initGame_noneSelected (draw : nat -> nat -> string * Z) (u : Q)
    (m : GameMode) (s : State) :
  noneSelected (grid (initGame draw u m s)).
Proof.
  intros i j. rewrite initGame_grid.
  do 10 (destruct i as [|i]; [do 6 (destruct j as [|j]; [reflexivity|]); reflexivity|]).
  reflexivity.
Qed.

Lemma initGame_validTiles (draw : nat -> nat -> string * Z) (u : Q)
    (m : GameMode) (s : State) :
  validGridDraw draw = true -> validTiles (grid (initGame draw u m s)).
Proof.
  intros Hd i j b. rewrite initGame_grid.
  assert (forall r c, (ROWS - INITIAL_ROWS <= r < ROWS)%nat -> (c < COLS)%nat ->
            1 <= value (freshBlock (draw r c)) <= 9) as Hv.
  { intros r c Hr Hc. apply validRowDraw_value; [|exact Hc].
    by apply validGridDraw_row. }
  unfold ROWS, INITIAL_ROWS, COLS in Hv.
  do 10 (destruct i as [|i];
         [do 6 (destruct j as [|j];
                [first [discriminate 1 | intros [= <-]; apply Hv; lia]|]);
          discriminate 1|]).
  discriminate 1.
Qed.

Lemma Inv_initGame (draw : nat -> nat -> string * Z) (u : Q)
    (m : GameMode) (s : State) :
  validU u -> validGridDraw draw = true -> Inv (initGame draw u m s).
Proof.
  intros Hu Hd. pose proof (generateTarget_range u Hu) as Hr.
  split; [cbn; unfold TIME_MODE_LIMIT; lia|].
  split; [cbn; lia|]. split; [cbn; apply Z.divide_0_r|].
  right. split; [apply wfGridb_spec; reflexivity|].
  split; [by apply initGame_validTiles|].
  rewrite noneSelected_sum by apply initGame_noneSelected.
  cbn [target initGame]. unfold TARGET_MIN in *. split; [lia|exact Hr].
Qed.

Lemma Inv_addRow (draw : nat -> string * Z) (s s' : State) :
  Inv s -> wfGrid (grid s) -> validRowDraw draw = true ->
  addRow draw s = Done s' -> Inv s'.
Proof.
  intros (Ht & Hs & Hd & Hb) W Hdraw Hs'.
  destruct Hb as [(Hnil & _)|(_ & V & Hsum & Hrange)].
  { rewrite Hnil in W. destruct W as [W _]. discriminate W. }
  destruct (topRowOccupied (grid s)) eqn:Htop.
  - rewrite addRow_lost in Hs' by exact Htop. injection Hs' as <-.
    split; [exact Ht|]. split; [exact Hs|]. split; [exact Hd|].
    right. done.
  - rewrite addRow_shift in Hs' by (exact W || exact Htop). injection Hs' as <-.
    split; [exact Ht|]. split; [exact Hs|]. split; [exact Hd|].
    right. cbn [grid target setGrid].
    split; [by apply wfGrid_shifted|].
    split; [by apply validTiles_shifted|].
    split; [|exact Hrange]. by rewrite sumSelected_shifted.
Qed.

Lemma Inv_resolveToggle (u : Q) (draw : nat -> string * Z) (s s' : State)
    (r c : nat) (block : Block) :
  Inv s -> wfGrid (grid s) -> validU u -> validRowDraw draw = true ->
  getCell (grid s) r c = Some block ->
  resolveToggle u draw s (setCell (grid s) r c (Some (toggleBlock block))) = Done s' ->
  Inv s'.
Proof.
  intros (Ht & Hs & Hd & Hb) W Hu Hdraw Hcell.
  destruct Hb as [(Hnil & _)|(_ & V & Hsum & Hrange)].
  { rewrite Hnil in W. destruct W as [W _]. discriminate W. }
  set (toggled := setCell (grid s) r c (Some (toggleBlock block))).
  assert (wfGrid toggled) as Wt by (by apply wfGrid_setCell).
  assert (validTiles toggled) as Vt by (by apply validTiles_toggled).
  pose proof (generateTarget_range u Hu) as Hr.
  unfold resolveToggle.
  destruct (Z.eqb_spec (sumSelected toggled) (target s)) as [Heq|Hne].
  - cbn zeta.
    set (cleared := clearSelected (selectedBlocks toggled) toggled).
    assert (wfGrid cleared) as Wc by (by apply wfGrid_clearSelected).
    destruct (applyGravity_spec cleared Wc) as (Wg & _).
    set (s3 := mkState (applyGravity cleared) (generateTarget u)
                       (score s + Z.of_nat (countSelected toggled) * 10)
                       (mode s) (gameState s) (timeLeft s)).
    assert (Inv s3) as I3.
    { split; [exact Ht|]. split; [cbn; lia|].
      split.
      { cbn [score s3]. apply Z.divide_add_r; [exact Hd|].
        apply Z.divide_mul_r, Z.divide_refl. }
      right. cbn [grid target s3].
      split; [exact Wg|].
      split; [by apply validTiles_applyGravity, validTiles_cleared|].
      rewrite noneSelected_sum.
      - unfold TARGET_MIN in *. split; [lia|exact Hr].
      - apply noneSelected_applyGravity; [exact Wc|apply noneSelected_cleared]. }
    destruct (mode s).
    + intros H. by apply (Inv_addRow draw s3 s' I3 Wg Hdraw).
    + intros [= <-]. destruct I3 as (_ & I3s & I3d & I3b).
      split; [cbn; unfold TIME_MODE_LIMIT; lia|]. done.
  - destruct (Z.gtb_spec (sumSelected toggled) (target s)) as [Hgt|Hle];
      intros [= <-].
    + split; [exact Ht|]. split; [exact Hs|]. split; [exact Hd|].
      right. cbn [grid target setGrid].
      split; [by apply wfGrid_deselectAll|].
      split; [by apply validTiles_deselectAll|].
      rewrite noneSelected_sum by apply noneSelected_deselectAll.
      unfold TARGET_MIN in *. split; [lia|exact Hrange].
    + split; [exact Ht|]. split; [exact Hs|]. split; [exact Hd|].
      right. cbn [grid target setGrid].
      split; [exact Wt|]. split; [exact Vt|]. split; [lia|exact Hrange].
Qed.

Lemma handleBlockClick_noop (u : Q) (draw : nat -> string * Z)
    (s : State) (r c : Z) :
  gameState s <> playing \/
  (0 <= r < Z.of_nat (length (grid s)) /\
   (c < 0 \/ getCell (grid s) (Z.to_nat r) (Z.to_nat c) = None)) ->
  handleBlockClick u draw s r c = Done s.
Proof.
  intros H. unfold handleBlockClick.
  destruct (GameState_eqb (gameState s) playing) eqn:Eg; cbn [negb]; [|done].
  destruct H as [Hn|[Hr Hc]].
  { destruct (gameState s); try discriminate Eg; done. }
  unfold lookupZ at 1. destruct (Z.ltb_spec r 0); [lia|].
  destruct (grid s !! Z.to_nat r) as [row|] eqn:Erow.
  2:{ apply lookup_ge_None in Erow. lia. }
  unfold lookupZ. destruct (Z.ltb_spec c 0) as [Hneg|Hpos]; [done|].
  destruct Hc as [Hc|Hc]; [lia|].
  unfold getCell in Hc. rewrite Erow in Hc.
  destruct (row !! Z.to_nat c) as [cell|]; [|done].
  by rewrite Hc.
Qed.

(** The three things a click can do. *)
Lemma handleBlockClick_cases (u : Q) (draw : nat -> string * Z)
    (s : State) (r c : Z) :
  handleBlockClick u draw s r c = Done s \/
  (gameState s = playing /\ ~ (0 <= r < Z.of_nat (length (grid s))) /\
   handleBlockClick u draw s r c = TypeError) \/
  (gameState s = playing /\ 0 <= r /\ 0 <= c /\
   exists block,
     getCell (grid s) (Z.to_nat r) (Z.to_nat c) = Some block /\
     handleBlockClick u draw s r c
     = resolveToggle u draw s
         (setCell (grid s) (Z.to_nat r) (Z.to_nat c) (Some (toggleBlock block)))).
Proof.
  assert (gameState s = playing \/ gameState s <> playing) as [Hp|Hn]
    by (destruct (gameState s); auto; right; discriminate).
  2:{ left. apply handleBlockClick_noop. by left. }
  destruct (decide (0 <= r < Z.of_nat (length (grid s)))) as [Hr|Hr].
  - destruct (decide (c < 0)) as [Hc|Hc].
    { left. apply handleBlockClick_noop. right. split; [exact Hr|by left]. }
    destruct (getCell (grid s) (Z.to_nat r) (Z.to_nat c)) as [block|] eqn:E.
    + right. right. split; [exact Hp|]. split; [lia|]. split; [lia|].
      exists block. split; [reflexivity|].
      apply handleBlockClick_occupied; (done || lia).
    + left. apply handleBlockClick_noop. right. split; [exact Hr|by right].
  - right. left. split; [exact Hp|]. split; [exact Hr|].
    unfold handleBlockClick. rewrite Hp. cbn [GameState_eqb negb].
    unfold lookupZ. destruct (Z.ltb_spec r 0); [done|].
    rewrite (lookup_ge_None_2 (grid s)); [done|lia].
Qed.

Lemma resolveToggle_done (u : Q) (draw : nat -> string * Z) (s : State)
    (r c : nat) (v : Cell) :
  wfGrid (grid s) ->
  exists s', resolveToggle u draw s (setCell (grid s) r c v) = Done s'.
Proof.
  intros W. unfold resolveToggle.
  set (toggled := setCell (grid s) r c v).
  destruct (sumSelected toggled =? target s).
  - cbn zeta. destruct (mode s); [|by eexists].
    set (cleared := clearSelected (selectedBlocks toggled) toggled).
    assert (wfGrid cleared) as Wc.
    { apply wfGrid_clearSelected. by apply wfGrid_setCell. }
    destruct (applyGravity_spec cleared Wc) as (Wg & _).
    match goal with
    | |- exists s', addRow draw ?s3 = Done s' =>
        destruct (addRow_cases draw s3 Wg) as (s' & Hs' & _)
    end.
    by exists s'.
  - destruct (sumSelected toggled >? target s); by eexists.
Qed.

Lemma Inv_wf (s : State) : Inv s -> gameState s <> menu -> wfGrid (grid s).
Proof.
  intros (_ & _ & _ & [(_ & Hm & _)|(W & _)]) Hn; [done|exact W].
Qed.

Lemma Inv_handleBlockClick (u : Q) (draw : nat -> string * Z)
    (s s' : State) (r c : Z) :
  Inv s -> validU u -> validRowDraw draw = true ->
  handleBlockClick u draw s r c = Done s' -> Inv s'.
Proof.
  intros I Hu Hd Hs'.
  destruct (handleBlockClick_cases u draw s r c)
    as [H|[(_ & _ & H)|(Hp & Hr & Hc & block & Hcell & H)]];
    rewrite H in Hs'.
  - by injection Hs' as <-.
  - discriminate Hs'.
  - assert (wfGrid (grid s)) as W.
    { apply Inv_wf; [exact I|]. rewrite Hp. discriminate. }
    by apply (Inv_resolveToggle u draw s s' _ _ block I W Hu Hd Hcell).
Qed.

Lemma Inv_tick (draw : nat -> string * Z) (s s' : State) :
  Inv s -> validRowDraw draw = true -> tick draw s = Done s' -> Inv s'.
Proof.
  intros I Hd. unfold tick.
  destruct (GameState_eqb (gameState s) playing) eqn:Eg; cbn [andb];
    [|by intros [= <-]].
  destruct (GameMode_eqb (mode s) time); [|by intros [= <-]].
  assert (wfGrid (grid s)) as W.
  { apply Inv_wf; [exact I|]. destruct (gameState s); done. }
  destruct I as (Ht & Hs & Hdv & Hb).
  destruct (Z.leb_spec (timeLeft s) 1).
  - apply Inv_addRow; [|exact W|exact Hd].
    split; [cbn; unfold TIME_MODE_LIMIT; lia|]. done.
  - intros [= <-]. split; [cbn; lia|]. done.
Qed.

Lemma Inv_setGameState (s : State) (gs : GameState) :
  Inv s -> (gameState s = menu -> gs = menu) -> Inv (setGameState gs s).
Proof.
  intros (Ht & Hs & Hd & Hb) Hgs.
  split; [exact Ht|]. split; [exact Hs|]. split; [exact Hd|].
  destruct Hb as [(Hnil & Hm & Htg)|Hb]; [left|by right].
  cbn [grid gameState target setGameState]. by rewrite (Hgs Hm).
Qed.

Lemma Inv_step (s s' : State) (e : Event) :
  Inv s -> enabledb s e = true -> step s e = Done s' -> Inv s'.
Proof.
  intros I He Hs'.
  destruct e as [m draw u|r c u draw|draw| | | |]; cbn [step enabledb] in *.
  - apply andb_true_iff in He as [He Hd]. apply andb_true_iff in He as [_ Hu].
    injection Hs' as <-. apply Inv_initGame; [by apply validUb_spec|exact Hd].
  - apply andb_true_iff in He as [Hu Hd].
    by apply (Inv_handleBlockClick u draw s s' r c I (validUb_spec _ Hu) Hd).
  - apply andb_true_iff in He as [_ Hd]. by apply (Inv_tick draw s s').
  - injection Hs' as <-. apply Inv_setGameState; [exact I|].
    intros Hm. rewrite Hm in He. discriminate He.
  - injection Hs' as <-. apply Inv_setGameState; [exact I|].
    intros Hm. rewrite Hm in He. discriminate He.
  - injection Hs' as <-. by apply Inv_setGameState.
  - injection Hs' as <-. by apply Inv_setGameState.
Qed.

Lemma Inv_initialState : Inv initialState.
Proof.
  split; [cbn; unfold TIME_MODE_LIMIT; lia|].
  split; [cbn; lia|]. split; [apply Z.divide_0_r|]. by left.
Qed.

Lemma Inv_reachable (s : State) : reachable s -> Inv s.
Proof.
  induction 1 as [|s e s' _ IH He Hs']; [apply Inv_initialState|].
  by apply (Inv_step s s' e).
Qed.

Lemma reachable_demoPending : reachable demoPending.
Proof.
  apply (reachable_runChecked initialState _
           [EStart time demoDraw 0; EClick 9 0 (1 # 2) demoRowDraw]);
    [apply reach_init|].
  vm_compute. reflexivity.
Qed.

(** ** What holds in every reachable state *)

(** X3. Once a game has been started the board is always ROWS x COLS:
    every reachable state either is the untouched menu state with the empty
    board, or has a well-formed board; in particular every state that is
    not in the menu has one. *)
Theorem X3_reachable_board_is_well_formed (s : State) :
  reachable s ->
  ((grid s = [] /\ gameState s = menu) \/ wfGrid (grid s)) /\
  (gameState s <> menu -> wfGrid (grid s)).
Proof.
  intros R. pose proof (Inv_reachable s R) as I. split.
  - destruct I as (_ & _ & _ & [(Hnil & Hm & _)|(W & _)]); [by left|by right].
  - by apply Inv_wf.
Qed.

Lemma X3_witness :
  reachable demoAfterQuit /\
  ((grid demoAfterQuit = [] /\ gameState demoAfterQuit = menu)
   \/ wfGrid (grid demoAfterQuit)).
Proof.
  split; [exact reachable_demoAfterQuit|].
  exact (proj1 (X3_reachable_board_is_well_formed demoAfterQuit reachable_demoAfterQuit)).
Defined.

(** X4. In a reachable state no timer tick throws, and a click throws
    exactly when the game is Playing and the row index is outside
    0..ROWS-1; every other click returns a state. *)
Theorem X4_reachable_no_exception (s : State) :
  reachable s ->
  (forall draw, exists s', tick draw s = Done s') /\
  (forall u draw r c,
     (gameState s = playing /\ ~ (0 <= r < Z.of_nat ROWS) /\
      handleBlockClick u draw s r c = TypeError) \/
     (~ (gameState s = playing /\ ~ (0 <= r < Z.of_nat ROWS)) /\
      exists s', handleBlockClick u draw s r c = Done s')).
Proof.
  intros R. pose proof (Inv_reachable s R) as I. split.
  - intros draw. unfold tick.
    destruct (GameState_eqb (gameState s) playing) eqn:Eg; cbn [andb];
      [|by eexists].
    destruct (GameMode_eqb (mode s) time); [|by eexists].
    destruct (timeLeft s <=? 1); [|by eexists].
    assert (wfGrid (grid s)) as W.
    { apply Inv_wf; [exact I|]. destruct (gameState s); done. }
    destruct (addRow_cases draw (setTimeLeft TIME_MODE_LIMIT s) W) as (s' & Hs' & _).
    by exists s'.
  - intros u draw r c.
    destruct (handleBlockClick_cases u draw s r c)
      as [H|[(Hp & Hr & H)|(Hp & Hr & Hc & block & Hcell & H)]].
    + right. split; [|by exists s].
      intros (Hp & Hr).
      assert (wfGrid (grid s)) as [Hl _].
      { apply Inv_wf; [exact I|]. rewrite Hp. discriminate. }
      destruct (handleBlockClick_cases u draw s r c)
        as [_|[(_ & Hr' & H')|(_ & Hr' & _ & block & Hcell & _)]].
      * assert (handleBlockClick u draw s r c = TypeError) as HT.
        { unfold handleBlockClick. rewrite Hp. cbn [GameState_eqb negb].
          unfold lookupZ. destruct (Z.ltb_spec r 0); [done|].
          rewrite (lookup_ge_None_2 (grid s)); [done|lia]. }
        rewrite H in HT. discriminate HT.
      * rewrite H in H'. discriminate H'.
      * apply Hr. split; [lia|]. unfold getCell in Hcell.
        destruct (grid s !! Z.to_nat r) eqn:E; [|done].
        apply lookup_lt_Some in E. lia.
    + left. assert (wfGrid (grid s)) as [Hl _].
      { apply Inv_wf; [exact I|]. rewrite Hp. discriminate. }
      rewrite Hl in Hr. done.
    + right. assert (wfGrid (grid s)) as W.
      { apply Inv_wf; [exact I|]. rewrite Hp. discriminate. }
      split.
      * intros (_ & Hnr). apply Hnr. split; [lia|]. unfold getCell in Hcell.
        destruct (grid s !! Z.to_nat r) eqn:E; [|done].
        apply lookup_lt_Some in E. destruct W as [Hl _]. lia.
      * rewrite H. by apply resolveToggle_done.
Qed.

Lemma X4_witness :
  reachable demoBeforeInjection /\
  exists s', tick demoRowDraw demoBeforeInjection = Done s'.
Proof.
  split; [exact reachable_demoBeforeInjection|].
  exact (proj1 (X4_reachable_no_exception demoBeforeInjection
                  reachable_demoBeforeInjection) demoRowDraw).
Defined.

(** X5. In every reachable state the countdown is between 1 and
    TIME_MODE_LIMIT (it never shows 0), and the score is a non-negative
    multiple of 10. *)
Theorem X5_reachable_countdown_and_score (s : State) :
  reachable s ->
  1 <= timeLeft s <= TIME_MODE_LIMIT /\ 0 <= score s /\ (10 | score s).
Proof.
  intros R. destruct (Inv_reachable s R) as (Ht & Hs & Hd & _). done.
Qed.

Lemma X5_witness :
  reachable demoAfterQuit /\
  1 <= timeLeft demoAfterQuit <= TIME_MODE_LIMIT /\
  0 <= score demoAfterQuit /\ (10 | score demoAfterQuit).
Proof.
  split; [exact reachable_demoAfterQuit|].
  exact (X5_reachable_countdown_and_score demoAfterQuit reachable_demoAfterQuit).
Defined.

(** X6. In every reachable state in which a game has been started (the
    board is not the empty array), every tile of the board has a value in
    1..9, the target lies in [TARGET_MIN, TARGET_MAX], and the selected
    tiles sum to less than the target: a pending selection never reaches
    or exceeds it. *)
Theorem X6_reachable_tiles_target_selection (s : State) :
  reachable s -> grid s <> [] ->
  validTiles (grid s) /\
  TARGET_MIN <= target s <= TARGET_MAX /\
  0 <= sumSelected (grid s) < target s.
Proof.
  intros R Hn. destruct (Inv_reachable s R) as (_ & _ & _ & Hb).
  destruct Hb as [(Hnil & _)|(W & V & Hsum & Hrange)]; [done|].
  split; [exact V|]. split; [exact Hrange|]. split; [|exact Hsum].
  clear -V. revert V. generalize (grid s) as g.
  assert (forall row : Row,
            (forall j b, row !! j = Some (Some b) -> 1 <= value b <= 9) ->
            0 <= rowSum row) as Hrow.
  { induction row as [|cell row IH]; intros Hv; [done|].
    unfold rowSum in *. cbn [foldr].
    assert (0 <= cellValue cell).
    { destruct cell as [b|]; simpl; [|lia].
      destruct (isSelected b); [|lia]. specialize (Hv 0%nat b eq_refl). lia. }
    assert (0 <= foldr (fun cell a => cellValue cell + a) 0 row).
    { apply IH. intros j b Hj. by apply (Hv (S j) b). }
    lia. }
  induction g as [|row g IH]; intros V; [done|].
  rewrite sumSelected_cons.
  assert (0 <= rowSum row).
  { apply Hrow. intros j b Hj. apply (V 0%nat j b).
    unfold getCell. cbn [lookup list_lookup]. by rewrite Hj. }
  assert (0 <= sumSelected g).
  { apply IH. intros i j b Hb. by apply (V (S i) j b). }
  lia.
Qed.

Lemma X6_witness :
  reachable demoAfterQuit /\ grid demoAfterQuit <> [] /\
  0 <= sumSelected (grid demoAfterQuit) < target demoAfterQuit.
Proof.
  assert (grid demoAfterQuit <> []) as Hn by (vm_compute; discriminate).
  split; [exact reachable_demoAfterQuit|]. split; [exact Hn|].
  exact (proj2 (proj2 (X6_reachable_tiles_target_selection demoAfterQuit
                         reachable_demoAfterQuit Hn))).
Defined.

(** ** Toggling a cell *)

Lemma rowSum_insert (row : Row) (c : nat) (cell v : Cell) :
  row !! c = Some cell ->
  rowSum (<[c := v]> row) = rowSum row - cellValue cell + cellValue v.
Proof.
  revert c. induction row as [|x row IH]; intros c Hc; [done|].
  destruct c as [|c]; cbn [lookup list_lookup] in Hc.
  - injection Hc as ->.
    change (<[0%nat := v]> (cell :: row)) with (v :: row).
    change (rowSum (v :: row)) with (cellValue v + rowSum row).
    change (rowSum (cell :: row)) with (cellValue cell + rowSum row). lia.
  - change (<[S c := v]> (x :: row)) with (x :: <[c := v]> row).
    change (rowSum (x :: <[c := v]> row))
      with (cellValue x + rowSum (<[c := v]> row)).
    change (rowSum (x :: row)) with (cellValue x + rowSum row).
    rewrite (IH c Hc). lia.
Qed.

Lemma sumSelected_setCell (g : Grid) (r c : nat) (block : Block) (v : Cell) :
  getCell g r c = Some block ->
  sumSelected (setCell g r c v)
  = sumSelected g - cellValue (Some block) + cellValue v.
Proof.
  unfold getCell, setCell. revert r.
  induction g as [|row g IH]; intros r Hcell; [done|].
  destruct r as [|r]; cbn [lookup list_lookup] in Hcell;
    cbn [alter list_alter]; rewrite !sumSelected_cons.
  - destruct (row !! c) as [cell|] eqn:E; [|done]. subst cell.
    rewrite (rowSum_insert row c (Some block) v E). lia.
  - rewrite (IH r Hcell). lia.
Qed.

Lemma toggleBlock_involutive (b : Block) : toggleBlock (toggleBlock b) = b.
Proof. destruct b as [i v sel]. unfold toggleBlock. simpl. by rewrite negb_involutive. Qed.

Lemma setCell_back (g : Grid) (r c : nat) (block : Block) (v : Cell) :
  getCell g r c = Some block ->
  setCell (setCell g r c v) r c (Some block) = g.
Proof.
  unfold getCell, setCell. intros Hcell. apply list_eq. intros i.
  destruct (decide (r = i)) as [<-|Hne].
  - rewrite !list_lookup_alter_eq.
    destruct (g !! r) as [row|]; [simpl|done].
    rewrite list_insert_insert_eq. f_equal. apply list_insert_id.
    destruct (row !! c) as [cell|]; [by subst|done].
  - by rewrite !list_lookup_alter_ne.
Qed.

(** X7. In a reachable Playing state, a click on a selected tile always
    just deselects it: the selected sum drops by the tile's value, stays
    below the target, and neither a Match nor an Overflow follows. (So a
    Match by deselection, which the handler would resolve, cannot come
    up in play.) *)
Theorem X7_reachable_deselect_is_pending (u : Q) (draw : nat -> string * Z)
    (s : State) (r c : Z) (block : Block) :
  reachable s -> gameState s = playing -> 0 <= r -> 0 <= c ->
  getCell (grid s) (Z.to_nat r) (Z.to_nat c) = Some block ->
  isSelected block = true ->
  let toggled :=
    setCell (grid s) (Z.to_nat r) (Z.to_nat c) (Some (toggleBlock block)) in
  sumSelected toggled = sumSelected (grid s) - value block /\
  sumSelected toggled < target s /\
  handleBlockClick u draw s r c = Done (setGrid toggled s).
Proof.
  intros R Hp Hr Hc Hcell Hsel toggled.
  destruct (Inv_reachable s R) as (_ & _ & _ & Hb).
  destruct Hb as [(_ & Hm & _)|(W & V & Hsum & Hrange)].
  { rewrite Hp in Hm. discriminate Hm. }
  assert (sumSelected toggled = sumSelected (grid s) - value block) as Ht.
  { unfold toggled. rewrite (sumSelected_setCell _ _ _ block) by exact Hcell.
    simpl. rewrite Hsel. simpl. lia. }
  pose proof (V _ _ _ Hcell) as Hv.
  split; [exact Ht|]. split; [lia|].
  rewrite (handleBlockClick_occupied u draw s r c block) by done.
  fold toggled. unfold resolveToggle.
  destruct (Z.eqb_spec (sumSelected toggled) (target s)); [lia|].
  destruct (Z.gtb_spec (sumSelected toggled) (target s)); [lia|done].
Qed.

Lemma X7_witness :
  reachable demoPending /\ gameState demoPending = playing /\ 0 <= 9 /\ 0 <= 0 /\
  getCell (grid demoPending) (Z.to_nat 9) (Z.to_nat 0) = Some (mkBlock "j0" 4 true) /\
  isSelected (mkBlock "j0" 4 true) = true /\
  handleBlockClick (1 # 2) demoRowDraw demoPending 9 0
  = Done (setGrid (setCell (grid demoPending) (Z.to_nat 9) (Z.to_nat 0)
                     (Some (toggleBlock (mkBlock "j0" 4 true)))) demoPending).
Proof.
  assert (gameState demoPending = playing) as Hp by (vm_compute; reflexivity).
  assert (0 <= 9) as H9 by lia. assert (0 <= 0) as H0 by lia.
  assert (getCell (grid demoPending) (Z.to_nat 9) (Z.to_nat 0)
          = Some (mkBlock "j0" 4 true)) as Hcell by (vm_compute; reflexivity).
  assert (isSelected (mkBlock "j0" 4 true) = true) as Hsel by reflexivity.
  repeat (split; [first [exact reachable_demoPending | exact Hp | exact H9
                        | exact H0 | exact Hcell | exact Hsel]|]).
  exact (proj2 (proj2 (X7_reachable_deselect_is_pending (1 # 2) demoRowDraw
                         demoPending 9 0 (mkBlock "j0" 4 true)
                         reachable_demoPending Hp H9 H0 Hcell Hsel))).
Defined.

(** X8. Selecting and deselecting are inverse: when a click on an
    occupied cell is Pending (the sum stays below the target, before and
    after), a second click on the same cell gives back exactly the state
    before the first, whatever the random draws. *)
Theorem X8_click_twice_restores_state (u u' : Q) (draw draw' : nat -> string * Z)
    (s : State) (r c : Z) (block : Block) :
  gameState s = playing -> 0 <= r -> 0 <= c ->
  getCell (grid s) (Z.to_nat r) (Z.to_nat c) = Some block ->
  sumSelected (grid s) < target s ->
  sumSelected (setCell (grid s) (Z.to_nat r) (Z.to_nat c)
                 (Some (toggleBlock block))) < target s ->
  exists s1,
    handleBlockClick u draw s r c = Done s1 /\
    handleBlockClick u' draw' s1 r c = Done s.
Proof.
  intros Hp Hr Hc Hcell Hsum Hsum'.
  set (toggled := setCell (grid s) (Z.to_nat r) (Z.to_nat c)
                          (Some (toggleBlock block))) in *.
  exists (setGrid toggled s). split.
  - rewrite (handleBlockClick_occupied u draw s r c block) by done.
    fold toggled. unfold resolveToggle.
    destruct (Z.eqb_spec (sumSelected toggled) (target s)); [lia|].
    destruct (Z.gtb_spec (sumSelected toggled) (target s)); [lia|done].
  - assert (getCell toggled (Z.to_nat r) (Z.to_nat c) = Some (toggleBlock block)) as Hcell'.
    { unfold toggled. apply getCell_setCell_eq. by rewrite Hcell. }
    rewrite (handleBlockClick_occupied u' draw' (setGrid toggled s) r c
               (toggleBlock block)) by done.
    cbn [grid setGrid]. rewrite toggleBlock_involutive.
    unfold toggled. rewrite (setCell_back _ _ _ block) by exact Hcell.
    unfold resolveToggle. cbn [target setGrid].
    destruct (Z.eqb_spec (sumSelected (grid s)) (target s)); [lia|].
    destruct (Z.gtb_spec (sumSelected (grid s)) (target s)); [lia|].
    by destruct s.
Qed.

Lemma X8_witness :
  gameState demoStart = playing /\ 0 <= 9 /\ 0 <= 3 /\
  getCell (grid demoStart) (Z.to_nat 9) (Z.to_nat 3) = Some (mkBlock "j3" 7 false) /\
  sumSelected (grid demoStart) < target demoStart /\
  sumSelected (setCell (grid demoStart) (Z.to_nat 9) (Z.to_nat 3)
                 (Some (toggleBlock (mkBlock "j3" 7 false)))) < target demoStart /\
  exists s1,
    handleBlockClick (1 # 2) demoRowDraw demoStart 9 3 = Done s1 /\
    handleBlockClick 0 demoRowDraw s1 9 3 = Done demoStart.
Proof.
  assert (gameState demoStart = playing) as Hp by (vm_compute; reflexivity).
  assert (0 <= 9) as H9 by lia. assert (0 <= 3) as H3 by lia.
  assert (getCell (grid demoStart) (Z.to_nat 9) (Z.to_nat 3)
          = Some (mkBlock "j3" 7 false)) as Hcell by (vm_compute; reflexivity).
  assert (sumSelected (grid demoStart) < target demoStart) as Hs
    by (vm_compute; reflexivity).
  assert (sumSelected (setCell (grid demoStart) (Z.to_nat 9) (Z.to_nat 3)
                         (Some (toggleBlock (mkBlock "j3" 7 false))))
          < target demoStart) as Hs' by (vm_compute; reflexivity).
  repeat (split; [first [exact Hp | exact H9 | exact H3 | exact Hcell
                        | exact Hs | exact Hs']|]).
  exact (X8_click_twice_restores_state (1 # 2) 0 demoRowDraw demoRowDraw
           demoStart 9 3 (mkBlock "j3" 7 false) Hp H9 H3 Hcell Hs Hs').
Defined.

(** ** The decision after a toggle *)




(** ** Sequences of events *)

Lemma run_app (s : State) (es1 es2 : list Event) :
  run s (es1 ++ es2)
  = match run s es1 with
    | Done s1 => run s1 es2
    | TypeError => TypeError
    end.
Proof.
  revert s. induction es1 as [|e es1 IH]; intros s; [done|].
  cbn [run app]. destruct (step s e) as [s1|]; [apply IH|done].
Qed.

Lemma handleBlockClick_mode (u : Q) (draw : nat -> string * Z)
    (s s' : State) (r c : Z) :
  handleBlockClick u draw s r c = Done s' -> mode s' = mode s.
Proof.
  unfold handleBlockClick.
  destruct (negb (GameState_eqb (gameState s) playing)); [by intros [= <-]|].
  destruct (lookupZ (grid s) r) as [row|]; [|done].
  destruct (lookupZ row c) as [[block|]|].
  2,3: by intros [= <-].
  cbn zeta. destruct (_ =? _).
  - destruct (mode s) eqn:Hm.
    + intros H. apply addRow_fields in H as (_ & _ & Hmode & _).
      rewrite Hmode. cbn [mode setTarget setScore setGrid]. exact Hm.
    + intros [= <-]. cbn [mode setTimeLeft setTarget setScore setGrid]. exact Hm.
  - destruct (_ >? _); by intros [= <-].
Qed.

Lemma tick_mode (draw : nat -> string * Z) (s s' : State) :
  tick draw s = Done s' -> mode s' = mode s.
Proof.
  unfold tick. destruct (_ && _); [|by intros [= <-]].
  destruct (_ <=? _).
  - intros H. by apply addRow_fields in H as (_ & _ & Hm & _).
  - by intros [= <-].
Qed.

(** X9. The mode is fixed for the duration of a game: over any sequence
    of events that contains no start, whatever it does to the board, the
    mode at the end is the mode at the beginning. *)
Theorem X9_mode_changes_only_at_start (s s' : State) (es : list Event) :
  forallb (fun e => negb (isStart e)) es = true ->
  run s es = Done s' -> mode s' = mode s.
Proof.
  revert s. induction es as [|e es IH]; intros s Hes Hrun.
  - by injection Hrun as <-.
  - cbn [forallb] in Hes. apply andb_true_iff in Hes as [He Hes].
    cbn [run] in Hrun. destruct (step s e) as [s1|] eqn:Hst; [|done].
    rewrite (IH s1 Hes Hrun).
    destruct e as [m draw u|r c u draw|draw| | | |]; cbn [step] in Hst.
    + discriminate He.
    + by apply handleBlockClick_mode in Hst.
    + by apply tick_mode in Hst.
    + by injection Hst as <-.
    + by injection Hst as <-.
    + by injection Hst as <-.
    + by injection Hst as <-.
Qed.

Lemma X9_witness :
  forallb (fun e => negb (isStart e))
          [EClick 9 0 (1 # 2) demoRowDraw; EPause; EResume; ETick demoRowDraw] = true /\
  exists s', run demoStart [EClick 9 0 (1 # 2) demoRowDraw; EPause; EResume;
                            ETick demoRowDraw] = Done s' /\
             mode s' = mode demoStart.
Proof.
  split; [reflexivity|].
  destruct (run demoStart [EClick 9 0 (1 # 2) demoRowDraw; EPause; EResume;
                           ETick demoRowDraw]) as [s'|] eqn:E.
  - exists s'. split; [reflexivity|].
    exact (X9_mode_changes_only_at_start demoStart s'
             [EClick 9 0 (1 # 2) demoRowDraw; EPause; EResume; ETick demoRowDraw]
             eq_refl E).
  - vm_compute in E. discriminate E.
Defined.

Lemma tick_not_playing (draw : nat -> string * Z) (s : State) :
  gameState s <> playing -> tick draw s = Done s.
Proof.
  intros Hn. unfold tick. destruct (gameState s); done.
Qed.

Lemma run_frozen (s : State) (es : list Event) :
  gameState s <> playing -> forallb isClickOrTick es = true -> run s es = Done s.
Proof.
  intros Hn. induction es as [|e es IH]; intros Hes; [done|].
  cbn [forallb] in Hes. apply andb_true_iff in Hes as [He Hes].
  cbn [run]. destruct e as [m draw u|r c u draw|draw| | | |]; try discriminate He;
    cbn [step].
  - rewrite handleBlockClick_noop by (by left). by apply IH.
  - rewrite tick_not_playing by exact Hn. by apply IH.
Qed.

(** X10. Outside Playing the game is frozen: in the menu, while paused and
    after a loss, any sequence of clicks and timer ticks leaves the whole
    state as it is. Hence pausing a Playing game, then clicking and
    ticking, then resuming gives back exactly the state at the pause,
    countdown included. *)
Theorem X10_frozen_outside_playing (s : State) (es : list Event) :
  forallb isClickOrTick es = true ->
  (gameState s <> playing -> run s es = Done s) /\
  (gameState s = playing -> run s (EPause :: es ++ [EResume]) = Done s).
Proof.
  intros Hes. split.
  - intros Hn. by apply run_frozen.
  - intros Hp. cbn [run step]. rewrite Hp. cbn [GameState_eqb].
    rewrite run_app, run_frozen; [|done|exact Hes].
    cbn [run step]. destruct s as [g t sc m gs tl]. cbn in Hp. by subst gs.
Qed.

Lemma X10_witness :
  forallb isClickOrTick [EClick 9 0 (1 # 2) demoRowDraw; ETick demoRowDraw] = true /\
  (gameState demoBeforeInjection = playing ->
   run demoBeforeInjection
       (EPause :: [EClick 9 0 (1 # 2) demoRowDraw; ETick demoRowDraw] ++ [EResume])
   = Done demoBeforeInjection).
Proof.
  split; [reflexivity|].
  exact (proj2 (X10_frozen_outside_playing demoBeforeInjection
                  [EClick 9 0 (1 # 2) demoRowDraw; ETick demoRowDraw] eq_refl)).
Defined.

(** ** Losing *)

Lemma addRow_gameover (draw : nat -> string * Z) (s s' : State) :
  addRow draw s = Done s' -> gameState s' = gameover ->
  gameState s = gameover \/ topRowOccupied (grid s') = true.
Proof.
  unfold addRow, topRowOccupied. cbn zeta.
  destruct (grid s !! 0%nat) as [top|] eqn:Etop; [|done].
  destruct (existsb isOccupied top) eqn:Eocc; intros [= <-] Hg.
  - right. cbn [grid setGameState]. by rewrite Etop.
  - by left.
Qed.

Lemma step_gameover (s s' : State) (e : Event) :
  step s e = Done s' -> gameState s' = gameover ->
  (gameState s = gameover /\ grid s' = grid s) \/
  topRowOccupied (grid s') = true.
Proof.
  destruct e as [m draw u|r c u draw|draw| | | |]; cbn [step].
  - by intros [= <-].
  - intros Hs' Hg.
    destruct (handleBlockClick_cases u draw s r c)
      as [H|[(_ & _ & H)|(Hp & Hr & Hc & block & Hcell & H)]];
      rewrite H in Hs'.
    + injection Hs' as <-. by left.
    + discriminate Hs'.
    + right. unfold resolveToggle in Hs'.
      destruct (_ =? _).
      * cbn zeta in Hs'. destruct (mode s).
        -- apply addRow_gameover in Hs' as [Hgo|Htop]; [|exact Htop|exact Hg].
           cbn [gameState] in Hgo. rewrite Hp in Hgo. discriminate Hgo.
        -- injection Hs' as <-. cbn in Hg. rewrite Hp in Hg. discriminate Hg.
      * destruct (_ >? _); injection Hs' as <-; cbn in Hg;
          rewrite Hp in Hg; discriminate Hg.
  - intros Hs' Hg. unfold tick in Hs'.
    destruct (GameState_eqb (gameState s) playing) eqn:Ep; cbn [andb] in Hs'.
    2:{ injection Hs' as <-. by left. }
    destruct (GameMode_eqb (mode s) time).
    2:{ injection Hs' as <-. by left. }
    destruct (_ <=? _).
    + apply addRow_gameover in Hs' as [Hgo|Htop]; [|by right|exact Hg].
      cbn [gameState setTimeLeft] in Hgo. rewrite Hgo in Ep. discriminate Ep.
    + injection Hs' as <-. cbn in Hg. rewrite Hg in Ep. discriminate Ep.
  - intros [= <-] Hg. cbn in Hg. by destruct (GameState_eqb _ _).
  - by intros [= <-].
  - by intros [= <-].
  - by intros [= <-].
Qed.

(** X11. The game is only ever lost with a tile in the top row: in every
    reachable state whose gameState is [gameover], some cell of row 0 of
    the board holds a tile. *)
Theorem X11_gameover_has_occupied_top_row (s : State) :
  reachable s -> gameState s = gameover -> topRowOccupied (grid s) = true.
Proof.
  induction 1 as [|s e s' R IH He Hs']; [discriminate 1|].
  intros Hg. destruct (step_gameover s s' e Hs' Hg) as [(Hgo & Heq)|Htop].
  - rewrite Heq. by apply IH.
  - exact Htop.
Qed.

Lemma reachable_demoLostByTime : reachable demoLostByTime.
Proof.
  apply (reachable_runChecked initialState _ demoLossTrace); [apply reach_init|].
  vm_compute. reflexivity.
Qed.

Lemma X11_witness :
  reachable demoLostByTime /\ gameState demoLostByTime = gameover /\
  topRowOccupied (grid demoLostByTime) = true.
Proof.
  assert (gameState demoLostByTime = gameover) as Hg by (vm_compute; reflexivity).
  split; [exact reachable_demoLostByTime|]. split; [exact Hg|].
  exact (X11_gameover_has_occupied_top_row demoLostByTime
           reachable_demoLostByTime Hg).
Defined.

(** ** The countdown over several ticks *)

(** X12. In a Playing time-attack game, [k] ticks with [k < timeLeft]
    only lower the countdown by [k]; the tick after [timeLeft - 1] of them
    is the one that runs the row injection, with the countdown back at
    TIME_MODE_LIMIT. So from a full countdown a row is injected every
    TIME_MODE_LIMIT ticks. *)
Theorem X12_countdown_over_ticks (s : State) (draws : list (nat -> string * Z)) :
  gameState s = playing -> mode s = time ->
  Z.of_nat (length draws) < timeLeft s ->
  run s (map ETick draws)
    = Done (setTimeLeft (timeLeft s - Z.of_nat (length draws)) s) /\
  (forall d, Z.of_nat (length draws) = timeLeft s - 1 ->
     run s (map ETick draws ++ [ETick d])
     = addRow d (setTimeLeft TIME_MODE_LIMIT s)).
Proof.
  intros Hp Hm Hlen.
  assert (run s (map ETick draws)
          = Done (setTimeLeft (timeLeft s - Z.of_nat (length draws)) s)) as Hrun.
  { revert s Hp Hm Hlen. induction draws as [|d draws IH]; intros s Hp Hm Hlen.
    - cbn [map run length].
      replace (timeLeft s - Z.of_nat 0) with (timeLeft s) by lia.
      by destruct s.
    - cbn [map run step]. cbn [length] in Hlen.
      unfold tick. rewrite Hp, Hm. cbn [GameState_eqb GameMode_eqb andb].
      destruct (Z.leb_spec (timeLeft s) 1); [lia|].
      rewrite IH; [|done|done|cbn [timeLeft setTimeLeft]; lia].
      cbn [length timeLeft setTimeLeft].
      replace (timeLeft s - 1 - Z.of_nat (length draws))
        with (timeLeft s - Z.of_nat (S (length draws))) by lia.
      by destruct s. }
  split; [exact Hrun|].
  intros d Hk. rewrite run_app, Hrun. cbn [run step].
  unfold tick. cbn [gameState mode timeLeft setTimeLeft].
  rewrite Hp, Hm. cbn [GameState_eqb GameMode_eqb andb].
  destruct (Z.leb_spec (timeLeft s - Z.of_nat (length draws)) 1); [|lia].
  replace (setTimeLeft TIME_MODE_LIMIT
             (setTimeLeft (timeLeft s - Z.of_nat (length draws)) s))
    with (setTimeLeft TIME_MODE_LIMIT s) by (by destruct s).
  by destruct (addRow d (setTimeLeft TIME_MODE_LIMIT s)).
Qed.

Lemma X12_witness :
  gameState demoPending = playing /\ mode demoPending = time /\
  Z.of_nat (length (replicate 14 demoRowDraw)) < timeLeft demoPending /\
  run demoPending (map ETick (replicate 14 demoRowDraw)) = Done demoBeforeInjection.
Proof.
  assert (gameState demoPending = playing) as Hp by (vm_compute; reflexivity).
  assert (mode demoPending = time) as Hm by (vm_compute; reflexivity).
  assert (Z.of_nat (length (replicate 14 demoRowDraw)) < timeLeft demoPending) as Hl
    by (vm_compute; reflexivity).
  repeat (split; [first [exact Hp | exact Hm | exact Hl]|]).
  exact (proj1 (X12_countdown_over_ticks demoPending (replicate 14 demoRowDraw)
                  Hp Hm Hl)).
Defined.

(** ** Counting tiles *)

Lemma sum_list_with_add {A : Type} (f h : A -> nat) (l : list A) :
  sum_list_with (fun x => (f x + h x)%nat) l
  = (sum_list_with f l + sum_list_with h l)%nat.
Proof. induction l as [|x l IH]; simpl; [done|]. rewrite IH. lia. Qed.

Lemma sum_list_with_ext_in {A : Type} (f h : A -> nat) (l : list A) :
  (forall x, x ∈ l -> f x = h x) -> sum_list_with f l = sum_list_with h l.
Proof.
  induction l as [|x l IH]; intros H; simpl; [done|].
  rewrite (H x) by apply list_elem_of_here.
  rewrite IH; [done|]. intros y Hy. apply H. by apply list_elem_of_further.
Qed.

Lemma countIf_cons (P : Cell -> bool) (x : Cell) (l : Row) :
  countIf P (x :: l) = ((if P x then 1 else 0) + countIf P l)%nat.
Proof. unfold countIf. simpl. by destruct (P x). Qed.

(** Counting along a row, cell by cell. *)
Lemma countIf_by_index (P : Cell -> bool) (row : Row) (k : nat) :
  sum_list_with
    (fun c => if P (match row !! (c - k)%nat with Some x => x | None => None end)
              then 1 else 0)%nat
    (seq k (length row))
  = countIf P row.
Proof.
  revert k. induction row as [|x row IH]; intros k; [done|].
  cbn [length seq sum_list_with]. rewrite Nat.sub_diag. cbn [lookup list_lookup].
  rewrite countIf_cons. f_equal. rewrite <- (IH (S k)).
  apply sum_list_with_ext_in. intros c Hc. apply elem_of_seq in Hc.
  replace (c - k)%nat with (S (c - S k)) by lia. done.
Qed.

(** Counting by rows and counting by columns agree. *)
Lemma countIf_rows_columns (P : Cell -> bool) (n : nat) (g : Grid) :
  Forall (fun row : Row => length row = n) g ->
  sum_list_with (countIf P) g
  = sum_list_with (fun c => countIf P (column g c)) (seq 0 n).
Proof.
  induction 1 as [|row g Hrow Hg IH].
  - simpl. induction (seq 0 n) as [|c l IHl]; [done|]. simpl. by rewrite <- IHl.
  - cbn [sum_list_with]. rewrite IH.
    rewrite <- (countIf_by_index P row 0), Hrow.
    rewrite <- sum_list_with_add.
    apply sum_list_with_ext_in. intros c _.
    unfold column. cbn [map]. rewrite countIf_cons, Nat.sub_0_r. done.
Qed.

Lemma countIf_isOccupied (l : Row) : countIf isOccupied l = length (occupied l).
Proof.
  induction l as [|[b|] l IH]; [done| |].
  - rewrite countIf_cons. simpl. by rewrite IH.
  - rewrite countIf_cons. simpl. by rewrite IH.
Qed.

Lemma tileCount_columns (g : Grid) :
  wfGrid g ->
  tileCount g
  = sum_list_with (fun c => length (occupied (column g c))) (seq 0 COLS).
Proof.
  intros [_ Hr]. unfold tileCount.
  rewrite (sum_list_with_ext_in _ (countIf isOccupied))
    by (intros; by rewrite countIf_isOccupied).
  rewrite (countIf_rows_columns isOccupied COLS g Hr).
  apply sum_list_with_ext_in. intros c _. apply countIf_isOccupied.
Qed.

Lemma countSelected_columns (g : Grid) :
  wfGrid g ->
  countSelected g
  = sum_list_with (fun c => countIf cellSelected (column g c)) (seq 0 COLS).
Proof.
  intros [_ Hr]. rewrite <- (countIf_rows_columns cellSelected COLS g Hr).
  unfold countSelected, countIf. induction g as [|row g IH]; [done|].
  apply Forall_cons in Hr as [_ Hr]. simpl. by rewrite IH.
Qed.

Lemma tileCount_applyGravity (g : Grid) :
  wfGrid g -> tileCount (applyGravity g) = tileCount g.
Proof.
  intros W. destruct (applyGravity_spec g W) as (W' & Hcol).
  rewrite !tileCount_columns by done.
  apply sum_list_with_ext_in. intros c Hc. apply elem_of_seq in Hc.
  rewrite Hcol by lia. by rewrite occupied_compact.
Qed.

Lemma clearSelected_length (sel : list SelectedBlock) (g : Grid) :
  length (clearSelected sel g) = length g.
Proof.
  unfold clearSelected. revert g.
  induction sel as [|b sel IH]; intros g; [done|].
  cbn [fold_left]. rewrite IH. apply setCell_length.
Qed.

Lemma column_cleared (g : Grid) (c : nat) :
  column (clearSelected (selectedBlocks g) g) c = map clearCell (column g c).
Proof.
  set (g' := clearSelected (selectedBlocks g) g).
  apply list_eq. intros i.
  pose proof (getCell_cleared g i c) as H. fold g' in H.
  rewrite !getCell_column in H. rewrite list_lookup_fmap.
  assert (length (column g' c) = length (column g c)) as Hlen.
  { rewrite !column_length. apply clearSelected_length. }
  destruct (column g c !! i) as [cell|] eqn:E;
    destruct (column g' c !! i) as [cell'|] eqn:E'; simpl.
  - f_equal. unfold clearCell. exact H.
  - apply lookup_lt_Some in E. apply lookup_ge_None in E'. lia.
  - apply lookup_ge_None in E. apply lookup_lt_Some in E'. lia.
  - done.
Qed.

Lemma occupied_clearCell (l : Row) :
  (length (occupied (map clearCell l)) + countIf cellSelected l)%nat
  = length (occupied l).
Proof.
  induction l as [|[b|] l IH]; [done| |].
  - rewrite countIf_cons. cbn [map]. unfold clearCell at 1. simpl.
    destruct (isSelected b); simpl; lia.
  - rewrite countIf_cons. simpl. exact IH.
Qed.

(** Clearing removes as many tiles as are selected. *)
Lemma tileCount_cleared (g : Grid) :
  wfGrid g ->
  (tileCount (clearSelected (selectedBlocks g) g) + countSelected g)%nat
  = tileCount g.
Proof.
  intros W.
  rewrite (tileCount_columns g W), (countSelected_columns g W).
  rewrite tileCount_columns by (by apply wfGrid_clearSelected).
  rewrite <- sum_list_with_add.
  apply sum_list_with_ext_in. intros c _.
  rewrite column_cleared. apply occupied_clearCell.
Qed.

Lemma occupied_insert_Some (row : Row) (c : nat) (b b' : Block) :
  row !! c = Some (Some b) ->
  length (occupied (<[c := Some b']> row)) = length (occupied row).
Proof.
  revert c. induction row as [|x row IH]; intros c Hc; [done|].
  destruct c as [|c]; cbn [lookup list_lookup] in Hc.
  - injection Hc as ->. done.
  - change (<[S c := Some b']> (x :: row)) with (x :: <[c := Some b']> row).
    destruct x as [bx|]; simpl; rewrite (IH c Hc); done.
Qed.

Lemma tileCount_setCell (g : Grid) (r c : nat) (b b' : Block) :
  getCell g r c = Some b -> tileCount (setCell g r c (Some b')) = tileCount g.
Proof.
  unfold getCell, setCell, tileCount. revert r.
  induction g as [|row g IH]; intros r Hcell; [done|].
  destruct r as [|r]; cbn [lookup list_lookup] in Hcell;
    cbn [alter list_alter sum_list_with].
  - destruct (row !! c) as [cell|] eqn:E; [|done]. subst cell.
    by rewrite (occupied_insert_Some row c b b' E).
  - by rewrite (IH r Hcell).
Qed.

Lemma tileCount_deselectAll (g : Grid) : tileCount (deselectAll g) = tileCount g.
Proof.
  unfold tileCount, deselectAll. induction g as [|row g IH]; [done|].
  cbn [map sum_list_with]. rewrite IH. f_equal.
  clear. induction row as [|[b|] row IH]; simpl; [done| |done].
  by rewrite IH.
Qed.

Lemma occupied_empty (row : Row) :
  existsb isOccupied row = false -> occupied row = [].
Proof. induction row as [|[b|] row IH]; simpl; [done|done|exact IH]. Qed.

Lemma occupied_freshRow (draw : nat -> string * Z) :
  length (occupied (freshRow draw)) = COLS.
Proof.
  unfold freshRow.
  change (map (λ c : nat, Some (freshBlock (draw c))) (seq 0 COLS))
    with (map Some (map (λ c : nat, freshBlock (draw c)) (seq 0 COLS))).
  by rewrite occupied_map_Some, length_map, length_seq.
Qed.

Lemma tileCount_shifted (g : Grid) (draw : nat -> string * Z) :
  wfGrid g -> topRowOccupied g = false ->
  tileCount (drop 1 g ++ [freshRow draw]) = (tileCount g + COLS)%nat.
Proof.
  intros [Hl _]. unfold topRowOccupied, tileCount.
  destruct g as [|top g]; [discriminate Hl|].
  cbn [lookup list_lookup]. intros Htop.
  change (drop 1 (top :: g)) with g.
  rewrite sum_list_with_app. cbn [sum_list_with].
  rewrite occupied_freshRow, (occupied_empty top Htop). cbn [length]. lia.
Qed.

(** X13. Tiles are removed only by a Match and added only by row
    injection. A click on an occupied cell that is Pending or Overflow
    keeps the number of tiles; a Match removes exactly as many tiles as
    are selected in the toggled grid, and in classic mode the injection
    that follows adds COLS tiles unless the game is lost. *)
Theorem X13_click_tile_count (u : Q) (draw : nat -> string * Z)
    (s : State) (r c : Z) (block : Block) :
  gameState s = playing -> wfGrid (grid s) -> 0 <= r -> 0 <= c ->
  getCell (grid s) (Z.to_nat r) (Z.to_nat c) = Some block ->
  let toggled :=
    setCell (grid s) (Z.to_nat r) (Z.to_nat c) (Some (toggleBlock block)) in
  exists s',
    handleBlockClick u draw s r c = Done s' /\
    (sumSelected toggled <> target s ->
       tileCount (grid s') = tileCount (grid s)) /\
    (sumSelected toggled = target s ->
       (tileCount (grid s') + countSelected toggled)%nat
       = (tileCount (grid s)
          + match mode s, gameState s' with
            | classic, playing => COLS
            | _, _ => 0
            end)%nat).
Proof.
  intros Hp W Hr Hc Hcell toggled.
  rewrite (handleBlockClick_occupied u draw s r c block) by done.
  fold toggled. unfold resolveToggle.
  assert (wfGrid toggled) as Wt by (by apply wfGrid_setCell).
  assert (tileCount toggled = tileCount (grid s)) as Ht
    by (by apply (tileCount_setCell _ _ _ block)).
  destruct (Z.eqb_spec (sumSelected toggled) (target s)) as [Heq|Hne].
  - cbn zeta.
    set (cleared := clearSelected (selectedBlocks toggled) toggled).
    assert (wfGrid cleared) as Wc by (by apply wfGrid_clearSelected).
    destruct (applyGravity_spec cleared Wc) as (Wg & _).
    assert ((tileCount (applyGravity cleared) + countSelected toggled)%nat
            = tileCount (grid s)) as Hcount.
    { rewrite tileCount_applyGravity by exact Wc.
      unfold cleared. by rewrite tileCount_cleared. }
    destruct (mode s).
    + destruct (topRowOccupied (applyGravity cleared)) eqn:Htop.
      * rewrite addRow_lost by exact Htop. eexists. split; [reflexivity|].
        split; [done|]. intros _. cbn [grid gameState setGameState]. lia.
      * rewrite addRow_shift by (exact Wg || exact Htop).
        eexists. split; [reflexivity|].
        split; [done|]. intros _. cbn [grid gameState setGrid]. rewrite Hp.
        rewrite tileCount_shifted by (exact Wg || exact Htop). lia.
    + eexists. split; [reflexivity|].
      split; [done|]. intros _. cbn [grid gameState setTimeLeft]. lia.
  - destruct (sumSelected toggled >? target s); eexists;
      (split; [reflexivity|]); (split; [|done]); intros _; cbn [grid setGrid].
    + by rewrite tileCount_deselectAll.
    + exact Ht.
Qed.

Lemma X13_witness :
  gameState demoPending = playing /\ wfGrid (grid demoPending) /\
  0 <= 9 /\ 0 <= 2 /\
  getCell (grid demoPending) (Z.to_nat 9) (Z.to_nat 2) = Some (mkBlock "j2" 6 false) /\
  exists s', handleBlockClick (1 # 2) demoRowDraw demoPending 9 2 = Done s'.
Proof.
  assert (gameState demoPending = playing) as Hp by (vm_compute; reflexivity).
  assert (wfGrid (grid demoPending)) as W by (apply wfGridb_spec; vm_compute; reflexivity).
  assert (0 <= 9) as H9 by lia. assert (0 <= 2) as H2 by lia.
  assert (getCell (grid demoPending) (Z.to_nat 9) (Z.to_nat 2)
          = Some (mkBlock "j2" 6 false)) as Hcell by (vm_compute; reflexivity).
  repeat (split; [first [exact Hp | exact W | exact H9 | exact H2 | exact Hcell]|]).
  destruct (X13_click_tile_count (1 # 2) demoRowDraw demoPending 9 2
              (mkBlock "j2" 6 false) Hp W H9 H2 Hcell) as (s' & Hs' & _).
  exists s'. exact Hs'.
Defined.

(** X14. A timer-driven or match-driven row injection on a full-size
    board either finds row 0 occupied, keeps the board and ends the game,
    or adds exactly COLS tiles and keeps the game state; it changes
    neither score, target, mode nor countdown. *)
Theorem X14_addRow_tile_count (draw : nat -> string * Z) (s : State) :
  wfGrid (grid s) ->
  exists s',
    addRow draw s = Done s' /\ wfGrid (grid s') /\
    tileCount (grid s')
    = (tileCount (grid s) + if topRowOccupied (grid s) then 0 else COLS)%nat /\
    gameState s' = (if topRowOccupied (grid s) then gameover else gameState s) /\
    score s' = score s /\ target s' = target s /\
    mode s' = mode s /\ timeLeft s' = timeLeft s.
Proof.
  intros W. destruct (topRowOccupied (grid s)) eqn:Htop.
  - rewrite addRow_lost by exact Htop. eexists. split; [reflexivity|].
    cbn [grid gameState score target mode timeLeft setGameState].
    split; [exact W|]. split; [lia|]. done.
  - rewrite addRow_shift by (exact W || exact Htop). eexists.
    split; [reflexivity|]. cbn [grid gameState score target mode timeLeft setGrid].
    split; [by apply wfGrid_shifted|].
    split; [by apply tileCount_shifted|]. done.
Qed.

Lemma X14_witness :
  wfGrid (grid demoBeforeInjection) /\
  exists s', addRow demoRowDraw demoBeforeInjection = Done s' /\
             tileCount (grid s') = 30%nat.
Proof.
  assert (wfGrid (grid demoBeforeInjection)) as W
    by (apply wfGridb_spec; vm_compute; reflexivity).
  split; [exact W|].
  destruct (X14_addRow_tile_count demoRowDraw demoBeforeInjection W)
    as (s' & Hs' & _ & Hcount & _).
  exists s'. split; [exact Hs'|].
  rewrite Hcount. vm_compute. reflexivity.
Defined.

(** ** The high score *)

Lemma appStep_highScore (a a' : App) (e : Event) :
  appStep a e = Some a' ->
  highScore a <= highScore a' /\ score (game a') <= highScore a' /\
  ((highScore a' = highScore a /\ storedHighScore a' = storedHighScore a) \/
   storedHighScore a' = Some (highScore a')).
Proof.
  unfold appStep. destruct (step (game a) e) as [s'|]; [|done].
  intros [= <-]. unfold highScoreEffect. cbn [game highScore storedHighScore].
  destruct (Z.gtb_spec (score s') (highScore a)); cbn [game highScore storedHighScore].
  - split; [lia|]. split; [lia|]. by right.
  - split; [lia|]. split; [lia|]. by left.
Qed.

(** X15. Over any sequence of events the high score never decreases, not
    even when a new game puts the score back to 0; after every event it
    is at least the current score; and whenever it has changed, the
    number written to storage is the high score itself. *)
Theorem X15_high_score_monotone (a a' : App) (es : list Event) :
  appRun a es = Some a' ->
  highScore a <= highScore a' /\
  (es <> [] -> score (game a') <= highScore a') /\
  ((highScore a' = highScore a /\ storedHighScore a' = storedHighScore a) \/
   storedHighScore a' = Some (highScore a')).
Proof.
  revert a. induction es as [|e es IH]; intros a Hrun.
  - injection Hrun as <-. split; [lia|]. split; [done|]. by left.
  - cbn [appRun] in Hrun. destruct (appStep a e) as [a1|] eqn:Hst; [|done].
    destruct (appStep_highScore a a1 e Hst) as (Hm1 & Hs1 & Hst1).
    destruct (IH a1 Hrun) as (Hm & Hs & Hstored).
    split; [lia|]. split.
    + intros _. destruct es as [|e' es].
      * by injection Hrun as <-.
      * by apply Hs.
    + destruct Hstored as [(Hh & Hsame)|Hnew]; [|by right].
      destruct Hst1 as [(Hh1 & Hsame1)|Hnew1].
      * left. split; congruence.
      * right. congruence.
Qed.

Lemma X15_witness :
  exists a',
    appRun demoApp [EStart classic demoDraw 0; EClick 9 0 (1 # 2) demoRowDraw] = Some a' /\
    highScore demoApp <= highScore a' /\ score (game a') = 0.
Proof.
  destruct (appRun demoApp [EStart classic demoDraw 0; EClick 9 0 (1 # 2) demoRowDraw])
    as [a'|] eqn:E.
  - exists a'. split; [reflexivity|].
    split; [exact (proj1 (X15_high_score_monotone demoApp a' _ E))|].
    vm_compute in E. injection E as <-. reflexivity.
  - vm_compute in E. discriminate E.
Defined.
